(** * Partition discovery in an extracted Android dump

    A shallow embedding of
    [sebaubuntu_libs/libandroid/partitions/partitions.py]: the candidate
    location generator, the property-file catalogue, the constructor of
    [Partitions] with its three search loops, and the accessors.

    Paths are values of [pathlib.PurePosixPath], kept in the normal form the
    library computes (a root and a list of components); the dictionary of
    discovered partitions is an insertion-ordered association list; the
    constructor runs in a small state-and-exception monad whose state is the
    object under construction, extended with the log of the [is_file] calls
    made so far. *)

From Stdlib Require Import List ListSet String Ascii Bool Arith Lia.
Import ListNotations.
Open Scope string_scope.
Open Scope list_scope.

(** ** Pure POSIX paths *)

Module PurePath.

(** The root of a POSIX path: none, one slash, or exactly two slashes
    (which pathlib keeps apart from one). *)
Inductive Root : Type := Relative | Slash | DoubleSlash.

Record Path : Type := mkPath { root : Root; parts : list string }.

Definition Root_eq_dec (a b : Root) : {a = b} + {a <> b}.
Proof. decide equality. Defined.

Definition Path_eq_dec (p q : Path) : {p = q} + {p <> q}.
Proof.
  decide equality.
  - apply (list_eq_dec string_dec).
  - apply Root_eq_dec.
Defined.

Definition is_slash (c : ascii) : bool := Ascii.eqb c "/"%char.

(** [s.split("/")], with [cur] the component being read. *)
Fixpoint split_slash (cur : string) (s : string) : list string :=
  match s with
  | EmptyString => [cur]
  | String c s' =>
      if is_slash c then cur :: split_slash "" s'
      else split_slash (cur ++ String c "")%string s'
  end.

(** Empty and ["."] components are dropped when a string is parsed. *)
Definition keep_component (c : string) : bool :=
  negb (String.eqb c "") && negb (String.eqb c ".").

Definition root_of_string (s : string) : Root :=
  match s with
  | String c0 s0 =>
      if is_slash c0 then
        match s0 with
        | String c1 s1 =>
            if is_slash c1 then
              match s1 with
              | String c2 _ => if is_slash c2 then Slash else DoubleSlash
              | EmptyString => DoubleSlash
              end
            else Slash
        | EmptyString => Slash
        end
      else Relative
  | EmptyString => Relative
  end.

(** [PurePosixPath(s)]. *)
Definition of_string (s : string) : Path :=
  mkPath (root_of_string s) (filter keep_component (split_slash "" s)).

(** [p / q] for two paths: a rooted right operand replaces the left one. *)
Definition joinpath (p q : Path) : Path :=
  match root q with
  | Relative => mkPath (root p) (parts p ++ parts q)
  | _ => q
  end.

(** [p.parent]: a path without components is its own parent. *)
Definition parent (p : Path) : Path :=
  match parts p with
  | [] => p
  | _ :: _ => mkPath (root p) (removelast (parts p))
  end.

(** [p.name]: the last component, or the empty string. *)
Definition name (p : Path) : string := last (parts p) "".

Definition root_str (r : Root) : string :=
  match r with Relative => "" | Slash => "/" | DoubleSlash => "//" end.

(** [str(p)]. *)
Definition str (p : Path) : string :=
  match root p, parts p with
  | Relative, [] => "."
  | r, ps => (root_str r ++ String.concat "/" ps)%string
  end.

End PurePath.
Import PurePath.

(** A string operand of [/] is parsed on the way. *)
Coercion of_string : string >-> Path.

Declare Scope path_scope.
Delimit Scope path_scope with path.
Bind Scope path_scope with Path.
Notation "p / q" := (joinpath p q) : path_scope.
Open Scope path_scope.

(** ** The candidate-location generator *)

(** The loop that removes duplicates: [seen] is the Python set, [unique_locations]
    the list being appended to. *)
Fixpoint dedup_loop (seen : set Path) (unique_locations locations : list Path)
  : list Path :=
  match locations with
  | [] => unique_locations
  | loc :: rest =>
      if set_mem Path_eq_dec loc seen
      then dedup_loop seen unique_locations rest
      else dedup_loop (set_add Path_eq_dec loc seen) (unique_locations ++ [loc]) rest
  end.

(** The list [locations] as it is just before duplicates are removed. *)
Definition raw_search_locations (base_path : Path) (partition_name : string)
  : list Path :=
  let standard_locations :=
    [ base_path / partition_name;
      base_path / partition_name / partition_name ] in
  let extended_locations :=
    if String.eqb partition_name "system" then
      [ base_path / "system";
        base_path / "system" / "system";
        base_path / "boot" / "ramdisk" / "system";
        base_path / "recovery" / "ramdisk" / "system";
        base_path / "vendor_boot" / "ramdisk" / "system";
        parent base_path / "ramdisk" / "system";
        parent base_path / "vendor_ramdisk" / "system" ]
    else if String.eqb partition_name "vendor" then
      [ base_path / "vendor";
        base_path / "boot" / "ramdisk" / "vendor";
        base_path / "recovery" / "ramdisk" / "vendor";
        base_path / "vendor_boot" / "ramdisk" / "vendor";
        parent base_path / "ramdisk" / "vendor";
        parent base_path / "vendor_ramdisk" / "vendor" ]
    else standard_locations in
  let global_locations :=
    [ base_path / partition_name;
      base_path / "boot" / "ramdisk" / partition_name;
      base_path / "recovery" / "ramdisk" / partition_name;
      base_path / "vendor_boot" / "ramdisk" / partition_name;
      parent base_path / partition_name;
      parent base_path / "ramdisk" / partition_name;
      parent base_path / "vendor_ramdisk" / partition_name;
      parent (parent base_path) / partition_name ] in
  extended_locations ++ global_locations.

Definition get_extended_search_locations (base_path : Path) (partition_name : string)
  : list Path :=
  dedup_loop (empty_set Path) [] (raw_search_locations base_path partition_name).

(** ** The property-file catalogue *)

Definition get_extended_build_prop_locations : list Path :=
  map of_string
    [ "build.prop"; "default.prop"; "prop.default";
      "etc/build.prop"; "system/build.prop"; "vendor/build.prop";
      "product/build.prop"; "system_ext/build.prop"; "odm/build.prop" ].

(** ** Auxiliary list functions, used to state what the loops do *)

(** The elements of [l] up to and including the first one that satisfies [p]. *)
Fixpoint take_until {A : Type} (p : A -> bool) (l : list A) : list A :=
  match l with
  | [] => []
  | x :: rest => x :: (if p x then [] else take_until p rest)
  end.

(** The pairs of a nested loop, outer variable first, in iteration order. *)
Definition all_pairs {A B : Type} (outer : list A) (inner : list B) : list (A * B) :=
  flat_map (fun a => map (pair a) inner) outer.

(** [l] without the elements of [seen] and without repetitions, each element
    at the place of its first occurrence. *)
Fixpoint first_occurrences {A : Type} (A_eq_dec : forall a b : A, {a = b} + {a <> b})
    (seen : set A) (l : list A) : list A :=
  match l with
  | [] => []
  | x :: rest =>
      if set_mem A_eq_dec x seen then first_occurrences A_eq_dec seen rest
      else x :: first_occurrences A_eq_dec (set_add A_eq_dec x seen) rest
  end.

(** ** Insertion-ordered dictionaries *)

Section Dict.
Context {K V : Type} (K_eq_dec : forall a b : K, {a = b} + {a <> b}).

(** A Python [dict]: keys are unique and kept in the order in which they
    were first inserted. *)
Definition dict : Type := list (K * V).

Fixpoint dict_get (k : K) (d : dict) : option V :=
  match d with
  | [] => None
  | (k', v) :: rest => if K_eq_dec k k' then Some v else dict_get k rest
  end.

(** [k in d]. *)
Definition dict_contains (k : K) (d : dict) : bool :=
  match dict_get k d with Some _ => true | None => false end.

(** [d[k] = v]: an existing key keeps its place, a new one goes last. *)
Fixpoint dict_set (k : K) (v : V) (d : dict) : dict :=
  match d with
  | [] => [(k, v)]
  | (k', v') :: rest =>
      if K_eq_dec k k' then (k, v) :: rest else (k', v') :: dict_set k v rest
  end.

Definition dict_keys (d : dict) : list K := map fst d.

(** [d.values()]. *)
Definition dict_values (d : dict) : list V := map snd d.
End Dict.

Arguments dict : clear implicits.

(** ** The external collaborators *)

(** The two groups the constructor enumerates. *)
Inductive Group : Type := SSI | TREBLE.

(** Modelled from the spec: [partition_model.py] and [partition.py] are not
    part of the sources at hand.  The catalogue of partition identities gives
    each identity a name, enumerates the identities of a group, resolves a name
    to an identity or to nothing, and singles out System and Vendor; the
    canonical property-file list is an ordered sequence of paths. *)
Class PartitionCatalog : Type := {
  PartitionModel : Type;
  model_eq_dec : forall a b : PartitionModel, {a = b} + {a <> b};
  model_name : PartitionModel -> string;
  SYSTEM : PartitionModel;
  VENDOR : PartitionModel;
  from_group : Group -> list PartitionModel;
  from_name : string -> option PartitionModel;
  BUILD_PROP_LOCATION : list Path;
  (* System and Vendor are two identities *)
  SYSTEM_is_not_VENDOR : SYSTEM <> VENDOR
}.

(** Modelled from the spec: a resolved partition is an opaque handle pairing
    an identity with the directory it was found at. *)
Record AndroidPartition `{PartitionCatalog} : Type := mkAndroidPartition {
  model : PartitionModel;
  path : Path
}.
Arguments mkAndroidPartition {_} model path.

(** ** The locator *)

Section Locator.
Context `{Cat : PartitionCatalog}.

(** The file system, as far as the locator looks at it: [p.is_file()]. *)
Variable is_file : Path -> bool.

(** The object under construction.  [probed] is a ghost field: the
    (directory, property file) pairs handed to [is_file] so far, oldest
    first. *)
Record Partitions : Type := mkPartitions {
  dump_path : Path;
  partitions : dict PartitionModel AndroidPartition;
  system : option AndroidPartition;
  vendor : option AndroidPartition;
  probed : list (Path * Path)
}.

Inductive exn : Type :=
| AssertionError (msg : string) (searched : list string)
| KeyError (k : PartitionModel).

Inductive outcome (A : Type) : Type :=
| Ok (a : A)
| Raise (e : exn).
Arguments Ok {A} a.
Arguments Raise {A} e.

(** Statements of a method: they read and write [self] and may raise. *)
Definition M (A : Type) : Type := Partitions -> outcome A * Partitions.

Definition ret {A} (a : A) : M A := fun self => (Ok a, self).

Definition bind {A B} (c : M A) (k : A -> M B) : M B :=
  fun self =>
    match c self with
    | (Ok a, self') => k a self'
    | (Raise e, self') => (Raise e, self')
    end.

Definition raise {A} (e : exn) : M A := fun self => (Raise e, self).

Notation "x <- c ;; k" := (bind c (fun x => k))
  (at level 61, c at next level, right associativity).
Notation "c ;;; k" := (bind c (fun _ => k))
  (at level 61, right associativity).

(** [model in self.partitions]. *)
Definition contains (m : PartitionModel) : M bool :=
  fun self => (Ok (dict_contains model_eq_dec m (partitions self)), self).

(** [self.partitions[m]]. *)
Definition getitem (m : PartitionModel) : M AndroidPartition :=
  fun self =>
    match dict_get model_eq_dec m (partitions self) with
    | Some p => (Ok p, self)
    | None => (Raise (KeyError m), self)
    end.

(** [self.partitions[m] = p]. *)
Definition setitem (m : PartitionModel) (p : AndroidPartition) : M unit :=
  fun self =>
    (Ok tt, mkPartitions (dump_path self)
              (dict_set model_eq_dec m p (partitions self))
              (system self) (vendor self) (probed self)).

Definition set_system (p : AndroidPartition) : M unit :=
  fun self =>
    (Ok tt, mkPartitions (dump_path self) (partitions self)
              (Some p) (vendor self) (probed self)).

Definition set_vendor (p : AndroidPartition) : M unit :=
  fun self =>
    (Ok tt, mkPartitions (dump_path self) (partitions self)
              (system self) (Some p) (probed self)).

Definition get_dump_path : M Path := fun self => (Ok (dump_path self), self).

(** [(location / build_prop_location).is_file()], logged. *)
Definition probe (location build_prop_location : Path) : M bool :=
  fun self =>
    (Ok (is_file (location / build_prop_location)),
     mkPartitions (dump_path self) (partitions self) (system self) (vendor self)
       (probed self ++ [(location, build_prop_location)])).

(** [assert m in self.partitions, f"{msg}{[str(loc) for loc in locations]}"]. *)
Definition assert_contains (m : PartitionModel) (msg : string)
    (locations : list Path) : M unit :=
  b <- contains m ;;
  if b then ret tt else raise (AssertionError msg (map str locations)).

(** The inner loop of the two mandatory searches: returns the value of
    the [found] flag when the loop is left. *)
Fixpoint mandatory_inner (m : PartitionModel) (location : Path)
    (all_prop_locations : list Path) : M bool :=
  match all_prop_locations with
  | [] => ret false
  | build_prop_location :: rest =>
      b <- probe location build_prop_location ;;
      if b then
        setitem m (mkAndroidPartition m location) ;;;
        ret true (* found = True; break *)
      else mandatory_inner m location rest
  end.

(** The outer loop of the two mandatory searches. *)
Fixpoint mandatory_outer (m : PartitionModel) (all_prop_locations : list Path)
    (found : bool) (search_locations : list Path) : M unit :=
  match search_locations with
  | [] => ret tt
  | location :: rest =>
      if found then ret tt (* break *)
      else
        found' <- mandatory_inner m location all_prop_locations ;;
        mandatory_outer m all_prop_locations found' rest
  end.

(** The inner loop of [_search_for_partition_extended]. *)
Fixpoint extended_inner (m : PartitionModel) (location : Path)
    (all_prop_locations : list Path) : M unit :=
  match all_prop_locations with
  | [] => ret tt
  | build_prop_location :: rest =>
      b <- probe location build_prop_location ;;
      if b then setitem m (mkAndroidPartition m location) (* break *)
      else extended_inner m location rest
  end.

(** The outer loop of [_search_for_partition_extended]. *)
Fixpoint extended_outer (m : PartitionModel) (all_prop_locations : list Path)
    (possible_locations : list Path) : M unit :=
  match possible_locations with
  | [] => ret tt
  | location :: rest =>
      b <- contains m ;;
      if b then ret tt (* break *)
      else
        extended_inner m location all_prop_locations ;;;
        extended_outer m all_prop_locations rest
  end.

Definition _search_for_partition_extended (m : PartitionModel) : M unit :=
  let extended_build_prop_locations := get_extended_build_prop_locations in
  let all_prop_locations :=
    BUILD_PROP_LOCATION ++ extended_build_prop_locations in
  base <- get_dump_path ;;
  let possible_locations := get_extended_search_locations base (model_name m) in
  sys <- getitem SYSTEM ;;
  ven <- getitem VENDOR ;;
  base' <- get_dump_path ;;
  let possible_locations :=
    possible_locations ++
    [ path sys / model_name m; path ven / model_name m; base' / model_name m ] in
  extended_outer m all_prop_locations possible_locations.

(** [for model in models: self._search_for_partition_extended(model)]. *)
Fixpoint search_each (models : list PartitionModel) : M unit :=
  match models with
  | [] => ret tt
  | m :: rest => _search_for_partition_extended m ;;; search_each rest
  end.

(** [not (model is other)]. *)
Definition is_not (other m : PartitionModel) : bool :=
  if model_eq_dec m other then false else true.

(** The body of [__init__], run on the object whose [dump_path] is set and
    whose [partitions] is empty. *)
Definition init_body : M unit :=
  base <- get_dump_path ;;
  let system_search_locations := get_extended_search_locations base "system" in
  let extended_build_prop_locations := get_extended_build_prop_locations in
  (* assigned in the first pass through the loop, the same value each time *)
  let all_prop_locations :=
    BUILD_PROP_LOCATION ++ extended_build_prop_locations in
  mandatory_outer SYSTEM all_prop_locations false system_search_locations ;;;
  assert_contains SYSTEM "System partition not found. Searched in: "
    system_search_locations ;;;
  sys <- getitem SYSTEM ;;
  set_system sys ;;;
  base' <- get_dump_path ;;
  let vendor_search_locations := get_extended_search_locations base' "vendor" in
  sys' <- getitem SYSTEM ;;
  let vendor_search_locations :=
    (path sys' / "vendor") :: vendor_search_locations in
  mandatory_outer VENDOR all_prop_locations false vendor_search_locations ;;;
  assert_contains VENDOR "Vendor partition not found. Searched in: "
    vendor_search_locations ;;;
  ven <- getitem VENDOR ;;
  set_vendor ven ;;;
  search_each (filter (is_not SYSTEM) (from_group SSI)) ;;;
  search_each (filter (is_not VENDOR) (from_group TREBLE)).

Definition fresh (dump_path : Path) : Partitions :=
  mkPartitions dump_path [] None None [].

(** [Partitions(dump_path)]: the object, or the exception that left the
    constructor. *)
Definition Partitions_new (dump_path : Path) : exn + Partitions :=
  match init_body (fresh dump_path) with
  | (Ok _, self) => inr self
  | (Raise e, _) => inl e
  end.

(** [get_partition]: the argument is an identity or [None]; identities are
    plain objects and so are true. *)
Definition get_partition (self : Partitions) (m : option PartitionModel)
  : option AndroidPartition :=
  match m with
  | None => None
  | Some m =>
      if dict_contains model_eq_dec m (partitions self)
      then dict_get model_eq_dec m (partitions self)
      else None
  end.

Definition get_partition_by_name (self : Partitions) (name : string)
  : option AndroidPartition :=
  get_partition self (from_name name).

Definition get_all_partitions (self : Partitions) : list AndroidPartition :=
  dict_values (partitions self).

(** The inner loop of [_search_for_partition]: a file that is missing takes
    the loop to the next file ([continue]), the first one found ends it. *)
Fixpoint legacy_inner (m : PartitionModel) (location : Path)
    (build_prop_locations : list Path) : M unit :=
  match build_prop_locations with
  | [] => ret tt
  | build_prop_location :: rest =>
      b <- probe location build_prop_location ;;
      if negb b then legacy_inner m location rest (* continue *)
      else setitem m (mkAndroidPartition m location) (* break *)
  end.

(** The outer loop of [_search_for_partition]: nothing leaves it early. *)
Fixpoint legacy_outer (m : PartitionModel) (build_prop_locations : list Path)
    (possible_locations : list Path) : M unit :=
  match possible_locations with
  | [] => ret tt
  | location :: rest =>
      legacy_inner m location build_prop_locations ;;;
      legacy_outer m build_prop_locations rest
  end.

Definition _search_for_partition (m : PartitionModel) : M unit :=
  sys <- getitem SYSTEM ;;
  ven <- getitem VENDOR ;;
  base <- get_dump_path ;;
  let possible_locations :=
    [ path sys / model_name m; path ven / model_name m; base / model_name m ] in
  legacy_outer m BUILD_PROP_LOCATION possible_locations.

(** *** Vocabulary for the statements about the searches *)

(** The candidates of [_search_for_partition]. *)
Definition legacy_locations (R sp vp : Path) (m : PartitionModel) : list Path :=
  [ sp / model_name m; vp / model_name m; R / model_name m ].

(** The directory holds one of the given property files. *)
Definition holds_one_of (fs : list Path) (d : Path) : bool :=
  existsb (fun f => is_file (d / f)) fs.

(** The calls of [is_file] of a search that walks every directory, each up to
    its first property file. *)
Definition probes_per_directory (fs locs : list Path) : list (Path * Path) :=
  flat_map (fun d => take_until (fun df => is_file (fst df / snd df)) (map (pair d) fs))
    locs.

(** The combined property-file list, canonical names first. *)
Definition all_prop_locations : list Path :=
  BUILD_PROP_LOCATION ++ get_extended_build_prop_locations.

(** A (directory, property file) pair names a regular file. *)
Definition hit (df : Path * Path) : bool := is_file (fst df / snd df).

(** The candidates of the generic extended search. *)
Definition possible_locations (R sp vp : Path) (m : PartitionModel) : list Path :=
  get_extended_search_locations R (model_name m) ++
  [ sp / model_name m; vp / model_name m; R / model_name m ].

(** The object after a search for [m] that walks [pairs] up to the first
    hit. *)
Definition searched (m : PartitionModel) (pairs : list (Path * Path))
    (self : Partitions) : Partitions :=
  mkPartitions (dump_path self)
    (match find hit pairs with
     | Some (d, _) => dict_set model_eq_dec m (mkAndroidPartition m d) (partitions self)
     | None => partitions self
     end)
    (system self) (vendor self)
    (probed self ++ take_until hit pairs).

(** What one generic extended search does to the table. *)
Definition optional_step (R sp vp : Path)
    (t : dict PartitionModel AndroidPartition) (m : PartitionModel)
  : dict PartitionModel AndroidPartition :=
  if dict_contains model_eq_dec m t then t
  else
    match find hit (all_pairs (possible_locations R sp vp m) all_prop_locations) with
    | Some (d, _) => dict_set model_eq_dec m (mkAndroidPartition m d) t
    | None => t
    end.

(** Every entry of a table is filed under the identity it carries. *)
Definition well_keyed (t : dict PartitionModel AndroidPartition) : Prop :=
  Forall (fun kv => model (snd kv) = fst kv) t.

(** The candidates of the two mandatory searches. *)
Definition system_search_locations (R : Path) : list Path :=
  get_extended_search_locations R "system".

Definition vendor_search_locations (R sp : Path) : list Path :=
  (sp / "vendor") :: get_extended_search_locations R "vendor".

(** Some candidate of the generic extended search for [m] holds a property
    file. *)
Definition discovered (R sp vp : Path) (m : PartitionModel) : bool :=
  match find hit (all_pairs (possible_locations R sp vp m) all_prop_locations) with
  | Some _ => true
  | None => false
  end.

(** The identities searched after System and Vendor, in order. *)
Definition optional_models : list PartitionModel :=
  filter (is_not SYSTEM) (from_group SSI) ++
  filter (is_not VENDOR) (from_group TREBLE).

End Locator.

Arguments Ok {Cat A} a.
Arguments Raise {Cat A} e.

(** ** A concrete catalogue and dump, for evaluation *)

Module Sample.

Inductive Model : Type := System | Product | SystemExt | Vendor | Odm.

Definition Model_eq_dec (a b : Model) : {a = b} + {a <> b}.
Proof. decide equality. Defined.

Definition Model_name (m : Model) : string :=
  match m with
  | System => "system"
  | Product => "product"
  | SystemExt => "system_ext"
  | Vendor => "vendor"
  | Odm => "odm"
  end.

Definition Model_all : list Model := [System; Product; SystemExt; Vendor; Odm].

Definition Model_from_group (g : Group) : list Model :=
  match g with
  | SSI => [System; Product; SystemExt]
  | TREBLE => [Vendor; Odm]
  end.

Definition Model_from_name (n : string) : option Model :=
  find (fun m => String.eqb (Model_name m) n) Model_all.

(** Modelled from the spec: a catalogue with the identities the spec names,
    System anchoring the first group and Vendor the second, and a canonical
    property-file list of relative paths. *)
#[export] Instance catalog : PartitionCatalog := {|
  PartitionModel := Model;
  model_eq_dec := Model_eq_dec;
  model_name := Model_name;
  SYSTEM := System;
  VENDOR := Vendor;
  from_group := Model_from_group;
  from_name := Model_from_name;
  BUILD_PROP_LOCATION := [of_string "build.prop"; of_string "etc/build.prop"];
  SYSTEM_is_not_VENDOR := ltac:(discriminate)
|}.

(** A file system given by the list of its regular files. *)
Definition files_fs (files : list string) (p : Path) : bool :=
  if in_dec Path_eq_dec p (map of_string files) then true else false.

Definition dump : Path := of_string "/dump".

(** A dump with System and Vendor in their own directories, nothing else. *)
Definition plain_fs : Path -> bool :=
  files_fs ["/dump/system/build.prop"; "/dump/vendor/build.prop"].

(** The same dump with a product partition. *)
Definition product_fs : Path -> bool :=
  files_fs ["/dump/system/build.prop"; "/dump/vendor/build.prop";
            "/dump/product/etc/build.prop"].

(** A system-as-root dump. *)
Definition system_as_root_fs : Path -> bool :=
  files_fs ["/dump/vendor/build.prop"; "/dump/system/system/build.prop"].

Definition system_partition : AndroidPartition :=
  mkAndroidPartition System (of_string "/dump/system").

Definition vendor_partition : AndroidPartition :=
  mkAndroidPartition Vendor (of_string "/dump/vendor").

(** The object as it is in [plain_fs] when the generic searches start, with
    an empty log. *)
Definition ready : Partitions :=
  mkPartitions dump [(System, system_partition); (Vendor, vendor_partition)]
    (Some system_partition) (Some vendor_partition) [].

(** A dump with a vendor directory under the System directory as well. *)
Definition nested_fs : Path -> bool :=
  files_fs ["/dump/system/build.prop"; "/dump/system/vendor/build.prop";
            "/dump/vendor/build.prop"].

(** A dump with a product directory under the System directory and another
    one under the root. *)
Definition two_products_fs : Path -> bool :=
  files_fs ["/dump/system/build.prop"; "/dump/vendor/build.prop";
            "/dump/system/product/build.prop"; "/dump/product/build.prop"].

Definition product_partition : AndroidPartition :=
  mkAndroidPartition Product (of_string "/dump/product").

(** An object whose table has System only. *)
Definition only_system : Partitions :=
  mkPartitions dump [(System, system_partition)] (Some system_partition) None [].

(** An object whose table has Product at a directory of its own choosing,
    between System and Vendor. *)
Definition with_product_elsewhere : Partitions :=
  mkPartitions dump
    [(System, system_partition);
     (Product, mkAndroidPartition Product (of_string "/elsewhere/product"));
     (Vendor, vendor_partition)]
    (Some system_partition) (Some vendor_partition) [].

(** The object the constructor returns, when it returns one. *)
Definition constructed (is_file : Path -> bool) (R : Path) : Partitions :=
  match Partitions_new is_file R with
  | inr P => P
  | inl _ => fresh R
  end.

Definition probe_eq_dec (a b : Path * Path) : {a = b} + {a <> b}.
Proof. decide equality; apply Path_eq_dec. Defined.

(** No pair of the two lists names a regular file. *)
Definition no_file_among (is_file : Path -> bool) (locs fs : list Path) : bool :=
  forallb (fun d => forallb (fun f => negb (is_file (d / f))) fs) locs.

End Sample.


(** * Properties *)

(** ** Lists *)

Section ListFacts.
Context {A : Type}.

Lemma find_app_hit (p : A -> bool) (l1 l2 : list A) :
  find p (l1 ++ l2) =
  match find p l1 with Some x => Some x | None => find p l2 end.
Proof.
  induction l1 as [|x l1 IH]; simpl; [reflexivity|].
  destruct (p x); [reflexivity | exact IH].
Qed.

Lemma take_until_app (p : A -> bool) (l1 l2 : list A) :
  take_until p (l1 ++ l2) =
  take_until p l1 ++
  match find p l1 with Some _ => [] | None => take_until p l2 end.
Proof.
  induction l1 as [|x l1 IH]; simpl; [reflexivity|].
  destruct (p x); simpl; [reflexivity | now rewrite IH].
Qed.

Lemma find_none_iff (p : A -> bool) (l : list A) :
  find p l = None <-> forall x, In x l -> p x = false.
Proof.
  split.
  - apply find_none.
  - induction l as [|x l IH]; simpl; intros H; [reflexivity|].
    rewrite (H x (or_introl eq_refl)). apply IH. intros y Hy. apply H. now right.
Qed.

Lemma take_until_no_hit (p : A -> bool) (l : list A) :
  find p l = None -> take_until p l = l.
Proof.
  induction l as [|x l IH]; simpl; [reflexivity|].
  destruct (p x); [discriminate|]. intros H. now rewrite IH.
Qed.

(** The first hit splits the list: nothing before it is a hit. *)
Lemma first_hit_split (p : A -> bool) (pre post : list A) (x : A) :
  Forall (fun y => p y = false) pre -> p x = true ->
  find p (pre ++ x :: post) = Some x /\
  take_until p (pre ++ x :: post) = pre ++ [x].
Proof.
  intros Hpre Hx. induction Hpre as [|y pre Hy _ IH]; simpl.
  - now rewrite Hx.
  - rewrite Hy. destruct IH as [-> ->]. now split.
Qed.
End ListFacts.

(** ** Dictionaries *)

Section DictFacts.
Context {K V : Type} (K_eq_dec : forall a b : K, {a = b} + {a <> b}).
Local Abbreviation get := (dict_get K_eq_dec).
Local Abbreviation set := (dict_set K_eq_dec).
Local Abbreviation contains := (dict_contains K_eq_dec).

Lemma dict_get_set_same (k : K) (v : V) (d : dict K V) :
  get k (set k v d) = Some v.
Proof.
  induction d as [|[k' v'] d IH]; simpl.
  - now destruct (K_eq_dec k k).
  - destruct (K_eq_dec k k') as [E|N]; simpl.
    + now destruct (K_eq_dec k k).
    + now destruct (K_eq_dec k k').
Qed.

Lemma dict_get_set_other (k k0 : K) (v : V) (d : dict K V) :
  k0 <> k -> get k0 (set k v d) = get k0 d.
Proof.
  intros N. induction d as [|[k' v'] d IH]; simpl.
  - now destruct (K_eq_dec k0 k).
  - destruct (K_eq_dec k k') as [E|N']; simpl.
    + subst k'. now destruct (K_eq_dec k0 k).
    + destruct (K_eq_dec k0 k'); [reflexivity | exact IH].
Qed.

Lemma dict_contains_set_same (k : K) (v : V) (d : dict K V) :
  contains k (set k v d) = true.
Proof. unfold dict_contains. now rewrite dict_get_set_same. Qed.

Lemma dict_contains_iff (k : K) (d : dict K V) :
  contains k d = true <-> In k (dict_keys d).
Proof.
  unfold dict_contains. induction d as [|[k' v'] d IH]; simpl.
  - split; [discriminate | tauto].
  - destruct (K_eq_dec k k') as [E|N].
    + split; auto.
    + rewrite IH. split; [tauto|]. intros [E|H]; [congruence | exact H].
Qed.

Lemma dict_contains_false_iff (k : K) (d : dict K V) :
  contains k d = false <-> ~ In k (dict_keys d).
Proof.
  rewrite <- dict_contains_iff. destruct (contains k d); split; congruence.
Qed.

(** A new key is appended, so the earlier keys keep their places. *)
Lemma dict_set_fresh (k : K) (v : V) (d : dict K V) :
  contains k d = false -> set k v d = d ++ [(k, v)].
Proof.
  unfold dict_contains. induction d as [|[k' v'] d IH]; simpl; [reflexivity|].
  destruct (K_eq_dec k k'); [discriminate|]. intros H. now rewrite IH.
Qed.

Lemma dict_get_In (k : K) (v : V) (d : dict K V) :
  get k d = Some v -> In v (dict_values d).
Proof.
  induction d as [|[k' v'] d IH]; simpl; [discriminate|].
  destruct (K_eq_dec k k'); [intros [= ->]; now left | right; auto].
Qed.
End DictFacts.

(** ** Paths *)

Section PathFacts.

Lemma joinpath_relative (p : Path) (ps : list string) :
  p / mkPath Relative ps = mkPath (root p) (parts p ++ ps).
Proof. reflexivity. Qed.

Lemma parent_snoc (r : Root) (l : list string) (x : string) :
  parent (mkPath r (l ++ [x])) = mkPath r l.
Proof.
  unfold parent. simpl. rewrite removelast_last.
  destruct l; reflexivity.
Qed.

Lemma parent_empty (r : Root) : parent (mkPath r []) = mkPath r [].
Proof. reflexivity. Qed.

Lemma name_snoc (r : Root) (l : list string) (x : string) :
  name (mkPath r (l ++ [x])) = x.
Proof. unfold name. simpl. apply last_last. Qed.

(** A list of components is empty, a single one, or ends in two. *)
Lemma last_two_cases (l : list string) :
  l = [] \/ (exists x, l = [] ++ [x]) \/ (exists l' y x, l = (l' ++ [y]) ++ [x]).
Proof.
  destruct (rev l) as [|a [|b t]] eqn:E;
    apply (f_equal (@rev string)) in E; rewrite rev_involutive in E; simpl in E.
  - now left.
  - right; left. now exists a.
  - right; right. now exists (rev t), b, a.
Qed.
End PathFacts.

(** ** First occurrences *)

Section FirstOccurrences.
Context {A : Type} (A_eq_dec : forall a b : A, {a = b} + {a <> b}).
Local Abbreviation firsts := (first_occurrences A_eq_dec).

Lemma set_mem_false (x : A) (seen : set A) :
  set_mem A_eq_dec x seen = false <-> ~ In x seen.
Proof.
  split.
  - apply set_mem_complete1.
  - apply set_mem_complete2.
Qed.

Lemma set_mem_true (x : A) (seen : set A) :
  set_mem A_eq_dec x seen = true <-> In x seen.
Proof.
  split.
  - apply set_mem_correct1.
  - apply set_mem_correct2.
Qed.

Lemma In_set_add (x y : A) (seen : set A) :
  In y (set_add A_eq_dec x seen) <-> y = x \/ In y seen.
Proof. apply set_add_iff. Qed.

Lemma first_occurrences_In (seen : set A) (l : list A) (p : A) :
  In p (firsts seen l) <-> In p l /\ ~ In p seen.
Proof.
  revert seen. induction l as [|x l IH]; intros seen; simpl; [tauto|].
  destruct (set_mem A_eq_dec x seen) eqn:E.
  - apply set_mem_true in E. rewrite IH.
    split; [tauto|]. intros [[->|H] N]; [contradiction | tauto].
  - apply set_mem_false in E. simpl. rewrite IH, In_set_add.
    split.
    + intros [->|[H N]]; [tauto|]. tauto.
    + intros [[->|H] N]; [now left|].
      destruct (A_eq_dec x p) as [->|D]; [now left | right].
      split; [exact H|]. intros [->|H']; congruence.
Qed.

Lemma first_occurrences_NoDup (seen : set A) (l : list A) :
  NoDup (firsts seen l).
Proof.
  revert seen. induction l as [|x l IH]; intros seen; simpl; [constructor|].
  destruct (set_mem A_eq_dec x seen); [apply IH|].
  constructor; [|apply IH].
  rewrite first_occurrences_In, In_set_add. intros [_ N]. apply N. now left.
Qed.

(** Only membership in [seen] matters. *)
Lemma first_occurrences_ext (seen seen' : set A) (l : list A) :
  (forall x, In x seen <-> In x seen') -> firsts seen l = firsts seen' l.
Proof.
  revert seen seen'. induction l as [|x l IH]; intros seen seen' H; [reflexivity|].
  simpl.
  assert (E : set_mem A_eq_dec x seen = set_mem A_eq_dec x seen').
  { destruct (set_mem A_eq_dec x seen') eqn:E'.
    - apply set_mem_true. apply H. now apply set_mem_true.
    - apply set_mem_false. rewrite H. now apply set_mem_false. }
  rewrite E. destruct (set_mem A_eq_dec x seen').
  - now apply IH.
  - f_equal. apply IH. intros y. rewrite !In_set_add, H. tauto.
Qed.

(** Whatever stands before [p] in the result is all that stood before the
    first [p] of the input, up to elements already seen. *)
Lemma first_occurrences_split (seen : set A) (l l1 l2 : list A) (p : A) :
  firsts seen l = l1 ++ p :: l2 ->
  exists r1 r2, l = r1 ++ p :: r2 /\
                forall x, In x r1 -> In x seen \/ In x l1.
Proof.
  revert seen l1. induction l as [|x l IH]; intros seen l1; simpl.
  - destruct l1; discriminate.
  - destruct (set_mem A_eq_dec x seen) eqn:E.
    + intros H. destruct (IH _ _ H) as (r1 & r2 & -> & Hr).
      exists (x :: r1), r2. split; [reflexivity|].
      intros y [<-|Hy]; [left; now apply set_mem_true | now apply Hr].
    + destruct l1 as [|a l1]; simpl; intros [= -> H].
      * exists [], l. split; [reflexivity | intros y []].
      * destruct (IH _ _ H) as (r1 & r2 & -> & Hr).
        exists (a :: r1), r2. split; [reflexivity|].
        intros y [<-|Hy]; [right; now left|].
        destruct (Hr y Hy) as [Hs|Hl]; [|right; now right].
        apply In_set_add in Hs. destruct Hs as [->|Hs]; [right; now left | now left].
Qed.

Lemma NoDup_app_disjoint (l1 l2 : list A) (x : A) :
  NoDup (l1 ++ l2) -> In x l1 -> In x l2 -> False.
Proof.
  induction l1 as [|a l1 IH]; simpl; intros Hnd H1 H2; [contradiction|].
  inversion Hnd as [|? ? Ha Hnd']; subst.
  destruct H1 as [->|H1]; [|now apply IH].
  apply Ha. apply in_or_app. now right.
Qed.

(** A duplicate-free prefix of the input comes out unchanged. *)
Lemma first_occurrences_prefix (seen : set A) (pre rest : list A) :
  NoDup pre -> (forall x, In x pre -> ~ In x seen) ->
  firstn (List.length pre) (firsts seen (pre ++ rest)) = pre.
Proof.
  revert seen. induction pre as [|x pre IH]; intros seen Hnd Hs; [reflexivity|].
  simpl. inversion Hnd as [|? ? Hx Hnd']; subst.
  destruct (set_mem A_eq_dec x seen) eqn:E.
  - apply set_mem_true in E. exfalso. apply (Hs x); [now left | exact E].
  - simpl. f_equal. apply IH; [exact Hnd'|].
    intros y Hy. rewrite In_set_add. intros [->|H]; [contradiction|].
    apply (Hs y); [now right | exact H].
Qed.
End FirstOccurrences.

(** ** The loop that removes duplicates *)

Section Dedup.

Lemma dedup_loop_first_occurrences (seen : set Path) (acc l : list Path) :
  dedup_loop seen acc l = acc ++ first_occurrences Path_eq_dec seen l.
Proof.
  revert seen acc. induction l as [|x l IH]; intros seen acc; simpl.
  - now rewrite app_nil_r.
  - destruct (set_mem Path_eq_dec x seen).
    + apply IH.
    + rewrite IH, <- app_assoc. reflexivity.
Qed.

Lemma get_extended_search_locations_eq (base_path : Path) (partition_name : string) :
  get_extended_search_locations base_path partition_name =
  first_occurrences Path_eq_dec []
    (raw_search_locations base_path partition_name).
Proof. unfold get_extended_search_locations. apply dedup_loop_first_occurrences. Qed.

(** Every candidate list begins with the directory of that name under the
    root. *)
Lemma get_extended_search_locations_head (R : Path) (n : string) :
  exists rest, get_extended_search_locations R n = (R / n) :: rest.
Proof.
  rewrite get_extended_search_locations_eq. unfold raw_search_locations.
  destruct (String.eqb n "system") eqn:E1;
    [apply String.eqb_eq in E1; subst n; eexists; reflexivity|].
  destruct (String.eqb n "vendor") eqn:E2;
    [apply String.eqb_eq in E2; subst n; eexists; reflexivity|].
  eexists; reflexivity.
Qed.
End Dedup.

(** C6: the generator returns no path twice, returns exactly the paths of the
    list it built, and keeps each at its first occurrence: whenever [p] stands
    before [q] in the result, the list built has a first [p] with no [q]
    (and no [p]) before it. *)
Theorem generator_no_duplicates_first_occurrence_order
    (R : Path) (N : string) :
  let out := get_extended_search_locations R N in
  let raw := raw_search_locations R N in
  NoDup out /\
  (forall p, In p out <-> In p raw) /\
  (forall l1 p l2 q, out = l1 ++ p :: l2 -> In q l2 ->
     exists r1 r2, raw = r1 ++ p :: r2 /\ ~ In p r1 /\ ~ In q r1).
Proof.
  intros out raw. subst out raw. rewrite get_extended_search_locations_eq.
  set (raw := raw_search_locations R N).
  pose proof (first_occurrences_NoDup Path_eq_dec [] raw) as Hnd.
  split; [exact Hnd | split].
  - intros p. rewrite first_occurrences_In. simpl. tauto.
  - intros l1 p l2 q Hout Hq.
    destruct (first_occurrences_split _ _ _ _ _ _ Hout) as (r1 & r2 & Hraw & Hr).
    exists r1, r2. split; [exact Hraw|].
    rewrite Hout in Hnd. apply NoDup_remove in Hnd. destruct Hnd as [Hnd Hp].
    split.
    + intros Hin. destruct (Hr _ Hin) as [[]|H1]. apply Hp. apply in_or_app. now left.
    + intros Hin. destruct (Hr _ Hin) as [[]|H1].
      exact (NoDup_app_disjoint _ _ _ Hnd H1 Hq).
Qed.

(** ** The search loops *)

Section Loops.
Context `{Cat : PartitionCatalog}.
Variable is_file : Path -> bool.

Local Abbreviation AP := mkAndroidPartition.
Local Abbreviation hits := (hit is_file).
Local Abbreviation after := (searched is_file).
Local Abbreviation files := all_prop_locations.

Lemma bind_ok {A B} (c : M A) (k : A -> M B) (s s' : Partitions) (a : A) :
  c s = (Ok a, s') -> bind c k s = k a s'.
Proof. unfold bind. now intros ->. Qed.

Lemma bind_raise {A B} (c : M A) (k : A -> M B) (s s' : Partitions) (e : exn) :
  c s = (Raise e, s') -> bind c k s = (Raise e, s').
Proof. unfold bind. now intros ->. Qed.

Lemma existsb_find {A} (p : A -> bool) (l : list A) :
  existsb p l = match find p l with Some _ => true | None => false end.
Proof.
  induction l as [|x l IH]; simpl; [reflexivity|].
  destruct (p x); [reflexivity | exact IH].
Qed.

Lemma searched_nil (m : PartitionModel) (s : Partitions) : after m [] s = s.
Proof. destruct s. unfold searched. simpl. now rewrite app_nil_r. Qed.

Lemma searched_app (m : PartitionModel) (l1 l2 : list (Path * Path)) (s : Partitions) :
  after m (l1 ++ l2) s =
  match find hits l1 with
  | Some _ => after m l1 s
  | None => after m l2 (after m l1 s)
  end.
Proof.
  unfold searched. rewrite find_app_hit, take_until_app.
  destruct (find hits l1) as [[d f]|]; simpl.
  - now rewrite app_nil_r.
  - now rewrite app_assoc.
Qed.

Lemma find_hit_at (loc d f : Path) (fs : list Path) :
  find hits (map (pair loc) fs) = Some (d, f) -> d = loc.
Proof.
  intros H. apply find_some in H. destruct H as [H _].
  apply in_map_iff in H. destruct H as (f' & [= <- _] & _). reflexivity.
Qed.

(** The object after one logged call of [is_file]. *)
Lemma searched_cons (m : PartitionModel) (d f : Path) (l : list (Path * Path))
    (s : Partitions) :
  after m ((d, f) :: l) s =
  if is_file (d / f)
  then mkPartitions (dump_path s)
         (dict_set model_eq_dec m (AP m d) (partitions s))
         (system s) (vendor s) (probed s ++ [(d, f)])
  else after m l
         (mkPartitions (dump_path s) (partitions s) (system s) (vendor s)
            (probed s ++ [(d, f)])).
Proof.
  unfold searched. cbn [find take_until].
  unfold hit at 1 3. cbn [fst snd].
  destruct (is_file (d / f)); cbn [dump_path partitions system vendor probed].
  - reflexivity.
  - now rewrite <- app_assoc.
Qed.

Lemma mandatory_inner_run (m : PartitionModel) (loc : Path) (fs : list Path)
    (s : Partitions) :
  mandatory_inner is_file m loc fs s =
  (Ok (existsb hits (map (pair loc) fs)), after m (map (pair loc) fs) s).
Proof.
  revert s. induction fs as [|f fs IH]; intros s.
  - simpl. unfold ret. now rewrite searched_nil.
  - cbn [mandatory_inner map existsb]. rewrite searched_cons.
    unfold bind at 1, probe. unfold hit at 1. cbn [fst snd].
    destruct (is_file (loc / f)).
    + reflexivity.
    + apply IH.
Qed.

Lemma mandatory_outer_found (m : PartitionModel) (locs : list Path) (s : Partitions) :
  mandatory_outer is_file m files true locs s = (Ok tt, s).
Proof. destruct locs; reflexivity. Qed.

Lemma mandatory_outer_run (m : PartitionModel) (locs : list Path) (s : Partitions) :
  mandatory_outer is_file m files false locs s =
  (Ok tt, after m (all_pairs locs files) s).
Proof.
  revert s. induction locs as [|loc locs IH]; intros s.
  - simpl. unfold ret. now rewrite searched_nil.
  - cbn [mandatory_outer]. erewrite bind_ok by apply mandatory_inner_run.
    change (all_pairs (loc :: locs) files)
      with (map (pair loc) files ++ all_pairs locs files).
    rewrite searched_app, existsb_find.
    destruct (find hits (map (pair loc) files)).
    + apply mandatory_outer_found.
    + apply IH.
Qed.

Lemma extended_inner_run (m : PartitionModel) (loc : Path) (fs : list Path)
    (s : Partitions) :
  extended_inner is_file m loc fs s = (Ok tt, after m (map (pair loc) fs) s).
Proof.
  revert s. induction fs as [|f fs IH]; intros s.
  - simpl. unfold ret. now rewrite searched_nil.
  - cbn [extended_inner map]. rewrite searched_cons.
    unfold bind at 1, probe.
    destruct (is_file (loc / f)).
    + reflexivity.
    + apply IH.
Qed.

Lemma extended_outer_present (m : PartitionModel) (locs : list Path) (s : Partitions) :
  dict_contains model_eq_dec m (partitions s) = true ->
  extended_outer is_file m files locs s = (Ok tt, s).
Proof.
  intros H. destruct locs as [|loc locs]; [reflexivity|].
  cbn [extended_outer]. unfold bind, contains. now rewrite H.
Qed.

Lemma extended_outer_run (m : PartitionModel) (locs : list Path) (s : Partitions) :
  dict_contains model_eq_dec m (partitions s) = false ->
  extended_outer is_file m files locs s =
  (Ok tt, after m (all_pairs locs files) s).
Proof.
  revert s. induction locs as [|loc locs IH]; intros s H.
  - simpl. unfold ret. now rewrite searched_nil.
  - cbn [extended_outer]. unfold bind at 1, contains. rewrite H.
    erewrite bind_ok by apply extended_inner_run.
    change (all_pairs (loc :: locs) files)
      with (map (pair loc) files ++ all_pairs locs files).
    rewrite searched_app.
    destruct (find hits (map (pair loc) files)) as [[d f]|] eqn:E.
    + apply extended_outer_present.
      unfold searched. rewrite E. simpl. apply dict_contains_set_same.
    + apply IH. unfold searched. rewrite E. exact H.
Qed.

(** One generic extended search, on an object that has System and Vendor. *)
Lemma search_for_partition_extended_run (m : PartitionModel) (s : Partitions)
    (sys ven : AndroidPartition) :
  dict_get model_eq_dec SYSTEM (partitions s) = Some sys ->
  dict_get model_eq_dec VENDOR (partitions s) = Some ven ->
  _search_for_partition_extended is_file m s =
  (Ok tt,
   if dict_contains model_eq_dec m (partitions s) then s
   else after m
          (all_pairs (possible_locations (dump_path s) (path sys) (path ven) m) files)
          s).
Proof.
  intros Hs Hv. unfold _search_for_partition_extended.
  unfold bind at 1, get_dump_path. unfold bind at 1, getitem. rewrite Hs.
  unfold bind at 1. rewrite Hv. unfold bind at 1.
  destruct (dict_contains model_eq_dec m (partitions s)) eqn:E.
  - now apply extended_outer_present.
  - now apply extended_outer_run.
Qed.

Lemma searched_partitions (R sp vp : Path) (m : PartitionModel) (s : Partitions) :
  partitions
    (if dict_contains model_eq_dec m (partitions s) then s
     else after m (all_pairs (possible_locations R sp vp m) files) s) =
  optional_step is_file R sp vp (partitions s) m.
Proof.
  unfold optional_step.
  destruct (dict_contains model_eq_dec m (partitions s)); reflexivity.
Qed.

(** A generic search never touches an entry that is there already. *)
Lemma optional_step_get (R sp vp : Path) (t : dict PartitionModel AndroidPartition)
    (m k : PartitionModel) (v : AndroidPartition) :
  dict_get model_eq_dec k t = Some v ->
  dict_get model_eq_dec k (optional_step is_file R sp vp t m) = Some v.
Proof.
  intros Hk. unfold optional_step.
  destruct (dict_contains model_eq_dec m t) eqn:E; [exact Hk|].
  destruct (find _ _) as [[d f]|]; [|exact Hk].
  rewrite dict_get_set_other; [exact Hk|].
  intros ->. unfold dict_contains in E. now rewrite Hk in E.
Qed.

Lemma search_each_run (ms : list PartitionModel) (s : Partitions)
    (sys ven : AndroidPartition) :
  dict_get model_eq_dec SYSTEM (partitions s) = Some sys ->
  dict_get model_eq_dec VENDOR (partitions s) = Some ven ->
  exists log,
    search_each is_file ms s =
    (Ok tt,
     mkPartitions (dump_path s)
       (fold_left (optional_step is_file (dump_path s) (path sys) (path ven)) ms
          (partitions s))
       (system s) (vendor s) log).
Proof.
  revert s. induction ms as [|m ms IH]; intros s Hs Hv.
  - exists (probed s). destruct s; reflexivity.
  - cbn [search_each fold_left].
    erewrite bind_ok by (eapply search_for_partition_extended_run; eassumption).
    set (s1 := if dict_contains model_eq_dec m (partitions s) then s else _).
    assert (Hp : partitions s1 =
                 optional_step is_file (dump_path s) (path sys) (path ven)
                   (partitions s) m) by apply searched_partitions.
    assert (Hd : dump_path s1 = dump_path s /\ system s1 = system s /\
                 vendor s1 = vendor s)
      by (subst s1; destruct (dict_contains _ _ _); auto).
    destruct Hd as (Hd & Hsy & Hve).
    destruct (IH s1) as [log Hlog].
    + rewrite Hp. now apply optional_step_get.
    + rewrite Hp. now apply optional_step_get.
    + exists log. rewrite Hlog, Hp, Hd, Hsy, Hve. reflexivity.
Qed.
End Loops.

(** ** The constructor *)

Section Construction.
Context `{Cat : PartitionCatalog}.
Variable is_file : Path -> bool.

Local Abbreviation AP := mkAndroidPartition.
Local Abbreviation hits := (hit is_file).
Local Abbreviation files := all_prop_locations.

Lemma contains_VENDOR_only_SYSTEM (a : AndroidPartition) :
  dict_contains model_eq_dec VENDOR [(SYSTEM, a)] = false.
Proof.
  unfold dict_contains. simpl.
  destruct (model_eq_dec VENDOR SYSTEM) as [E|N]; [|reflexivity].
  exfalso. apply SYSTEM_is_not_VENDOR. now symmetry.
Qed.

Lemma get_SYSTEM_initial (a b : AndroidPartition) :
  dict_get model_eq_dec SYSTEM [(SYSTEM, a); (VENDOR, b)] = Some a.
Proof. simpl. now destruct (model_eq_dec SYSTEM SYSTEM). Qed.

Lemma get_VENDOR_initial (a b : AndroidPartition) :
  dict_get model_eq_dec VENDOR [(SYSTEM, a); (VENDOR, b)] = Some b.
Proof.
  simpl. destruct (model_eq_dec VENDOR SYSTEM) as [E|_].
  - exfalso. apply SYSTEM_is_not_VENDOR. now symmetry.
  - now destruct (model_eq_dec VENDOR VENDOR).
Qed.

Lemma assert_contains_ok (m : PartitionModel) (msg : string) (locs : list Path)
    (s : Partitions) :
  dict_contains model_eq_dec m (partitions s) = true ->
  assert_contains m msg locs s = (Ok tt, s).
Proof. intros H. unfold assert_contains, bind, contains. now rewrite H. Qed.

Lemma assert_contains_fail (m : PartitionModel) (msg : string) (locs : list Path)
    (s : Partitions) :
  dict_contains model_eq_dec m (partitions s) = false ->
  assert_contains m msg locs s = (Raise (AssertionError msg (map str locs)), s).
Proof. intros H. unfold assert_contains, bind, contains. now rewrite H. Qed.

Lemma getitem_ok (m : PartitionModel) (a : AndroidPartition) (s : Partitions) :
  dict_get model_eq_dec m (partitions s) = Some a -> getitem m s = (Ok a, s).
Proof. intros H. unfold getitem. now rewrite H. Qed.

Lemma fold_optional_step_get (R sp vp : Path) (ms : list PartitionModel)
    (t : dict PartitionModel AndroidPartition) (k : PartitionModel)
    (v : AndroidPartition) :
  dict_get model_eq_dec k t = Some v ->
  dict_get model_eq_dec k (fold_left (optional_step is_file R sp vp) ms t) = Some v.
Proof.
  revert t. induction ms as [|m ms IH]; intros t H; [exact H|].
  simpl. apply IH. now apply optional_step_get.
Qed.

(** The constructor, in one equation per way of leaving it. *)
Lemma Partitions_new_run (R : Path) :
  match find hits (all_pairs (system_search_locations R) files) with
  | None =>
      Partitions_new is_file R =
      inl (AssertionError "System partition not found. Searched in: "
             (map str (system_search_locations R)))
  | Some (sp, _) =>
      match find hits (all_pairs (vendor_search_locations R sp) files) with
      | None =>
          Partitions_new is_file R =
          inl (AssertionError "Vendor partition not found. Searched in: "
                 (map str (vendor_search_locations R sp)))
      | Some (vp, _) =>
          exists log,
            Partitions_new is_file R =
            inr (mkPartitions R
                   (fold_left (optional_step is_file R sp vp) optional_models
                      [(SYSTEM, AP SYSTEM sp); (VENDOR, AP VENDOR vp)])
                   (Some (AP SYSTEM sp)) (Some (AP VENDOR vp)) log)
      end
  end.
Proof.
  destruct (find hits (all_pairs (system_search_locations R) files))
    as [[sp fsys]|] eqn:Esys.
  2:{ unfold Partitions_new, init_body.
      cbv beta iota zeta delta [bind get_dump_path fresh dump_path].
      change (BUILD_PROP_LOCATION ++ get_extended_build_prop_locations) with files.
      rewrite mandatory_outer_run. unfold searched.
      fold (system_search_locations R). rewrite Esys.
      reflexivity. }
  assert (Hrun :
    let (o, s) := init_body is_file (fresh R) in
    match find hits (all_pairs (vendor_search_locations R sp) files) with
    | None =>
        o = Raise (AssertionError "Vendor partition not found. Searched in: "
                     (map str (vendor_search_locations R sp)))
    | Some (vp, _) =>
        o = Ok tt /\
        dump_path s = R /\
        partitions s =
          fold_left (optional_step is_file R sp vp) optional_models
            [(SYSTEM, AP SYSTEM sp); (VENDOR, AP VENDOR vp)] /\
        system s = Some (AP SYSTEM sp) /\ vendor s = Some (AP VENDOR vp)
    end).
  { unfold init_body.
    cbv beta iota zeta delta [bind get_dump_path fresh dump_path].
    change (BUILD_PROP_LOCATION ++ get_extended_build_prop_locations) with files.
    rewrite mandatory_outer_run. unfold searched at 1.
    fold (system_search_locations R). rewrite Esys.
    cbn [dump_path partitions system vendor probed].
    rewrite assert_contains_ok by apply dict_contains_set_same.
    rewrite (getitem_ok SYSTEM (AP SYSTEM sp)) by apply dict_get_set_same.
    unfold set_system. cbn [dump_path partitions system vendor probed].
    rewrite (getitem_ok SYSTEM (AP SYSTEM sp)) by apply dict_get_set_same.
    cbn [path].
    change (sp / "vendor" :: get_extended_search_locations R "vendor")
      with (vendor_search_locations R sp).
    rewrite mandatory_outer_run. unfold searched at 1.
    cbn [dump_path partitions system vendor probed].
    change (dict_set model_eq_dec SYSTEM (AP SYSTEM sp) [])
      with [(SYSTEM, AP SYSTEM sp)].
    destruct (find hits (all_pairs (vendor_search_locations R sp) files))
      as [[vp fven]|] eqn:Even.
    2:{ rewrite assert_contains_fail by apply contains_VENDOR_only_SYSTEM.
        reflexivity. }
    rewrite dict_set_fresh by apply contains_VENDOR_only_SYSTEM. cbn [app].
    rewrite assert_contains_ok
      by (cbn [partitions]; unfold dict_contains; now rewrite get_VENDOR_initial).
    rewrite (getitem_ok VENDOR (AP VENDOR vp)) by apply get_VENDOR_initial.
    unfold set_vendor. cbn [dump_path partitions system vendor probed].
    match goal with
    | |- context [search_each is_file ?ms ?s] =>
        destruct (search_each_run is_file ms s (AP SYSTEM sp) (AP VENDOR vp))
          as [log1 H1];
        [apply get_SYSTEM_initial | apply get_VENDOR_initial | rewrite H1]
    end.
    cbn [dump_path partitions system vendor probed path].
    match goal with
    | |- context [search_each is_file ?ms ?s] =>
        destruct (search_each_run is_file ms s (AP SYSTEM sp) (AP VENDOR vp))
          as [log2 H2];
        [apply fold_optional_step_get, get_SYSTEM_initial
        | apply fold_optional_step_get, get_VENDOR_initial
        | rewrite H2]
    end.
    cbn [dump_path partitions system vendor probed path].
    unfold optional_models. rewrite fold_left_app. auto. }
  unfold Partitions_new. destruct (init_body is_file (fresh R)) as [o s].
  destruct (find hits (all_pairs (vendor_search_locations R sp) files))
    as [[vp fven]|].
  - destruct Hrun as (-> & Hd & Hp & Hs & Hv). exists (probed s).
    destruct s as [d t sy ve pr].
    cbn [dump_path partitions system vendor probed] in *. now subst.
  - now subst o.
Qed.
End Construction.

(** ** The candidates for ["vendor"] *)

(** Brings the paths of a goal to the form [mkPath r (l ++ components)]. *)
Ltac eval_literals :=
  repeat match goal with
         | |- context [of_string ?s] =>
             let v := eval vm_compute in (of_string s) in
             change (of_string s) with v
         | H : context [of_string ?s] |- _ =>
             let v := eval vm_compute in (of_string s) in
             change (of_string s) with v in H
         end.

Ltac norm_paths :=
  eval_literals;
  rewrite ?parent_snoc, ?parent_empty in *;
  rewrite ?joinpath_relative in *;
  cbn [root parts] in *;
  rewrite <- ?app_assoc in *;
  cbn [app] in *.

(** Two paths over the same directory with different tails are different. *)
Ltac path_neq H :=
  injection H as H; try apply app_inv_head in H; congruence.

Ltac split_root R :=
  let r := fresh "r" in
  let P := fresh "P" in
  let l := fresh "l" in
  let y := fresh "y" in
  let x := fresh "x" in
  destruct R as [r P];
  destruct (last_two_cases P) as [->|[[x ->]|(l & y & x & ->)]].

Ltac In_cases H :=
  repeat (destruct H as [H|H]; [try (symmetry in H) | ]); try contradiction.

(** C1, as the code has it: for a root whose last component is neither
    ["ramdisk"] nor ["vendor_ramdisk"], the candidates for ["vendor"] begin
    with R/vendor, R/boot/ramdisk/vendor, R/recovery/ramdisk/vendor,
    R/vendor_boot/ramdisk/vendor, R-parent/ramdisk/vendor and
    R-parent/vendor_ramdisk/vendor, in that order; R/vendor/vendor is not a
    candidate at all. *)
Theorem vendor_candidates_prefix (R : Path)
    (Hramdisk : name R <> "ramdisk")
    (Hvendor_ramdisk : name R <> "vendor_ramdisk") :
  firstn 6 (get_extended_search_locations R "vendor") =
    [ R / "vendor";
      R / "boot" / "ramdisk" / "vendor";
      R / "recovery" / "ramdisk" / "vendor";
      R / "vendor_boot" / "ramdisk" / "vendor";
      parent R / "ramdisk" / "vendor";
      parent R / "vendor_ramdisk" / "vendor" ] /\
  ~ In (R / "vendor" / "vendor") (get_extended_search_locations R "vendor").
Proof.
  rewrite get_extended_search_locations_eq. split.
  - match goal with
    | |- firstn _ (first_occurrences _ _ ?raw) = ?six =>
        change raw with (six ++ skipn 6 raw);
        change 6 with (List.length six)
    end.
    apply first_occurrences_prefix; [|intros ? _ []].
    split_root R; unfold name in *; cbn [parts] in *;
      rewrite ?last_last in *; norm_paths;
      repeat (constructor; [intros H; cbn [In] in H; In_cases H; path_neq H|]);
      constructor.
  - rewrite first_occurrences_In. intros [H _].
    cbv [raw_search_locations] in H.
    change (String.eqb "vendor" "system") with false in H.
    change (String.eqb "vendor" "vendor") with true in H.
    cbv iota in H. cbn [app In] in H.
    split_root R; norm_paths; In_cases H; path_neq H.
Qed.

Lemma vendor_candidates_prefix_witness :
  firstn 6 (get_extended_search_locations (of_string "/a/dump") "vendor") =
    map of_string
      [ "/a/dump/vendor"; "/a/dump/boot/ramdisk/vendor";
        "/a/dump/recovery/ramdisk/vendor"; "/a/dump/vendor_boot/ramdisk/vendor";
        "/a/ramdisk/vendor"; "/a/vendor_ramdisk/vendor" ].
Proof.
  refine (proj1 (vendor_candidates_prefix (of_string "/a/dump") _ _));
    vm_compute; discriminate.
Defined.

(** C1, as stated, fails: the second candidate for ["vendor"] under [/dump]
    is [/dump/boot/ramdisk/vendor], not [/dump/vendor/vendor]. *)
Lemma vendor_candidates_claimed_prefix_fails :
  let R := of_string "/dump" in
  firstn 7 (get_extended_search_locations R "vendor") <>
    [ R / "vendor";
      R / "vendor" / "vendor";
      R / "boot" / "ramdisk" / "vendor";
      R / "recovery" / "ramdisk" / "vendor";
      R / "vendor_boot" / "ramdisk" / "vendor";
      parent R / "ramdisk" / "vendor";
      parent R / "vendor_ramdisk" / "vendor" ].
Proof. vm_compute. discriminate. Qed.

(** ** The searches and the accessors *)

Section Searches.
Context `{Cat : PartitionCatalog}.
Variable is_file : Path -> bool.

Local Abbreviation AP := mkAndroidPartition.
Local Abbreviation hits := (hit is_file).
Local Abbreviation files := all_prop_locations.

Lemma no_file_no_hit (locs : list Path) :
  (forall d f, In d locs -> In f files -> is_file (d / f) = false) ->
  find hits (all_pairs locs files) = None.
Proof.
  intros H. apply find_none_iff. intros [d f] Hin.
  unfold all_pairs in Hin. apply in_flat_map in Hin.
  destruct Hin as (d' & Hd & Hf). apply in_map_iff in Hf.
  destruct Hf as (f' & [= <- <-] & Hf). now apply H.
Qed.

(** C2: in the generic extended search for an identity that is not in the
    table, the first (directory, file) pair in iteration order that names a
    regular file wins: the identity is recorded with that directory, and the
    calls of [is_file] made are those for the pairs before it and for it, no
    more. *)
Theorem extended_search_first_match_wins
    (m : PartitionModel) (self : Partitions) (sys ven : AndroidPartition)
    (pre post : list (Path * Path)) (d f : Path)
    (Hsys : dict_get model_eq_dec SYSTEM (partitions self) = Some sys)
    (Hven : dict_get model_eq_dec VENDOR (partitions self) = Some ven)
    (Habsent : dict_contains model_eq_dec m (partitions self) = false)
    (Horder :
       all_pairs (possible_locations (dump_path self) (path sys) (path ven) m) files
       = pre ++ (d, f) :: post)
    (Hpre : Forall (fun df => is_file (fst df / snd df) = false) pre)
    (Hhit : is_file (d / f) = true) :
  _search_for_partition_extended is_file m self =
  (Ok tt,
   mkPartitions (dump_path self)
     (dict_set model_eq_dec m (AP m d) (partitions self))
     (system self) (vendor self)
     (probed self ++ pre ++ [(d, f)])).
Proof.
  rewrite (search_for_partition_extended_run is_file m self sys ven Hsys Hven).
  rewrite Habsent, Horder. unfold searched.
  destruct (first_hit_split hits pre post (d, f) Hpre Hhit) as [-> ->].
  reflexivity.
Qed.

(** C3: when no candidate for System holds any property file of the combined
    list, the constructor ends in the assertion error that lists every
    candidate tried; when System is found and no candidate for Vendor holds
    one, likewise, the list starting with the candidate under the System
    directory.  In both cases no object is returned. *)
Theorem mandatory_partition_missing_is_fatal (R : Path) :
  ((forall d f, In d (system_search_locations R) -> In f files ->
                is_file (d / f) = false) ->
   Partitions_new is_file R =
   inl (AssertionError "System partition not found. Searched in: "
          (map str (system_search_locations R)))) /\
  (forall sp fsys,
     find hits (all_pairs (system_search_locations R) files) = Some (sp, fsys) ->
     (forall d f, In d (vendor_search_locations R sp) -> In f files ->
                  is_file (d / f) = false) ->
     Partitions_new is_file R =
     inl (AssertionError "Vendor partition not found. Searched in: "
            (map str (vendor_search_locations R sp)))).
Proof.
  pose proof (Partitions_new_run is_file R) as Hrun. split.
  - intros H. now rewrite (no_file_no_hit _ H) in Hrun.
  - intros sp fsys Hs H. rewrite Hs in Hrun.
    now rewrite (no_file_no_hit _ H) in Hrun.
Qed.

Lemma fold_optional_step_absent (R sp vp : Path) (m : PartitionModel)
    (ms : list PartitionModel) (t : dict PartitionModel AndroidPartition) :
  find hits (all_pairs (possible_locations R sp vp m) files) = None ->
  dict_get model_eq_dec m t = None ->
  dict_get model_eq_dec m (fold_left (optional_step is_file R sp vp) ms t) = None.
Proof.
  intros Hnone. revert t. induction ms as [|m' ms IH]; intros t Ht; [exact Ht|].
  simpl. apply IH. unfold optional_step.
  destruct (dict_contains model_eq_dec m' t); [exact Ht|].
  destruct (find hits (all_pairs (possible_locations R sp vp m') files))
    as [[d f]|] eqn:E; [|exact Ht].
  rewrite dict_get_set_other; [exact Ht|].
  intros ->. rewrite Hnone in E. discriminate.
Qed.

(** C8: when System and Vendor are found, the constructor returns an object
    and raises nothing; an identity other than those two, none of whose
    candidates holds a property file, is not in the table of that object,
    and [get_partition] returns [None] for it. *)
Theorem optional_partition_not_found_is_absent
    (R sp fsys vp fven : Path) (m : PartitionModel)
    (Hsys : find hits (all_pairs (system_search_locations R) files) = Some (sp, fsys))
    (Hven : find hits (all_pairs (vendor_search_locations R sp) files) = Some (vp, fven))
    (Hnot_system : m <> SYSTEM)
    (Hnot_vendor : m <> VENDOR)
    (Hnone : forall d f, In d (possible_locations R sp vp m) -> In f files ->
                         is_file (d / f) = false) :
  exists P,
    Partitions_new is_file R = inr P /\
    dict_contains model_eq_dec m (partitions P) = false /\
    get_partition P (Some m) = None.
Proof.
  pose proof (Partitions_new_run is_file R) as Hrun.
  rewrite Hsys, Hven in Hrun. destruct Hrun as [log Hrun].
  eexists. split; [exact Hrun|].
  cbn [partitions get_partition].
  assert (Hget : dict_get model_eq_dec m
                   (fold_left (optional_step is_file R sp vp) optional_models
                      [(SYSTEM, AP SYSTEM sp); (VENDOR, AP VENDOR vp)]) = None).
  { apply fold_optional_step_absent; [now apply no_file_no_hit|].
    simpl. destruct (model_eq_dec m SYSTEM); [contradiction|].
    destruct (model_eq_dec m VENDOR); [contradiction | reflexivity]. }
  unfold dict_contains. rewrite Hget. split; reflexivity.
Qed.

(** C9: a name the catalogue does not resolve gets [None] from
    [get_partition_by_name]; the accessor has no way to raise. *)
Theorem unknown_name_is_absent (P : Partitions) (name : string)
    (Hunknown : from_name name = None) :
  get_partition_by_name P name = None.
Proof. unfold get_partition_by_name. now rewrite Hunknown. Qed.

(** A generic extended search leaves the object alone, or walks its pairs. *)
Lemma search_snd_cases (m : PartitionModel) (self : Partitions) :
  snd (_search_for_partition_extended is_file m self) = self \/
  exists sys ven,
    dict_get model_eq_dec SYSTEM (partitions self) = Some sys /\
    dict_get model_eq_dec VENDOR (partitions self) = Some ven /\
    dict_contains model_eq_dec m (partitions self) = false /\
    snd (_search_for_partition_extended is_file m self) =
    searched is_file m
      (all_pairs (possible_locations (dump_path self) (path sys) (path ven) m) files)
      self.
Proof.
  destruct (dict_get model_eq_dec SYSTEM (partitions self)) as [sys|] eqn:Es.
  2:{ left. unfold _search_for_partition_extended.
      unfold bind at 1, get_dump_path. unfold bind at 1, getitem.
      now rewrite Es. }
  destruct (dict_get model_eq_dec VENDOR (partitions self)) as [ven|] eqn:Ev.
  2:{ left. unfold _search_for_partition_extended.
      unfold bind at 1, get_dump_path. unfold bind at 1, getitem.
      rewrite Es. unfold bind at 1. now rewrite Ev. }
  rewrite (search_for_partition_extended_run is_file m self sys ven Es Ev).
  destruct (dict_contains model_eq_dec m (partitions self)) eqn:Em.
  - now left.
  - right. now exists sys, ven.
Qed.

(** C10: the generic extended search for an identity that is in the table
    already leaves the object as it was: no entry is written and no file is
    looked at. *)
Theorem extended_search_keeps_present_entry
    (m : PartitionModel) (self : Partitions)
    (Hpresent : dict_contains model_eq_dec m (partitions self) = true) :
  snd (_search_for_partition_extended is_file m self) = self.
Proof.
  destruct (search_snd_cases m self)
    as [H|(sys & ven & _ & _ & Habsent & _)]; [exact H|].
  rewrite Habsent in Hpresent. discriminate.
Qed.

(** Searching an identity a second time never changes the table. *)
Lemma extended_search_twice_same_table (m : PartitionModel) (self : Partitions) :
  let once := snd (_search_for_partition_extended is_file m self) in
  partitions (snd (_search_for_partition_extended is_file m once)) =
  partitions once.
Proof.
  intros once.
  destruct (search_snd_cases m once)
    as [H|(sys & ven & Hs & Hv & Habsent & H)]; [now rewrite H|].
  rewrite H. unfold searched. cbn [partitions].
  destruct (find hits _) as [[d f]|] eqn:Ef; [exfalso | reflexivity].
  subst once.
  destruct (search_snd_cases m self)
    as [H0|(sys0 & ven0 & Hs0 & Hv0 & Habsent0 & H0)]; rewrite H0 in *.
  - rewrite (search_for_partition_extended_run is_file m self sys ven Hs Hv) in H0.
    rewrite Habsent in H0. cbn [snd] in H0.
    apply (f_equal partitions) in H0. unfold searched in H0.
    cbn [partitions] in H0. rewrite Ef in H0.
    rewrite <- H0 in Habsent. now rewrite dict_contains_set_same in Habsent.
  - unfold searched in Hs, Hv, Habsent, Ef. cbn [partitions dump_path] in *.
    destruct (find hits
                (all_pairs
                   (possible_locations (dump_path self) (path sys0) (path ven0) m)
                   files)) as [[d0 f0]|] eqn:Ef0.
    + now rewrite dict_contains_set_same in Habsent.
    + assert (sys = sys0) by congruence. assert (ven = ven0) by congruence.
      subst. congruence.
Qed.
End Searches.

(** ** The table after construction *)

Section Table.
Context `{Cat : PartitionCatalog}.
Variable is_file : Path -> bool.

Local Abbreviation AP := mkAndroidPartition.
Local Abbreviation step := (optional_step is_file).
Local Abbreviation table := (dict PartitionModel AndroidPartition).

Lemma dict_set_well_keyed (m : PartitionModel) (d : Path) (t : table) :
  well_keyed t -> well_keyed (dict_set model_eq_dec m (AP m d) t).
Proof.
  induction 1 as [|[k v] t Hkv Ht IH]; simpl.
  - repeat constructor.
  - destruct (model_eq_dec m k); constructor; auto.
Qed.

Lemma fold_step_well_keyed (R sp vp : Path) (ms : list PartitionModel) (t : table) :
  well_keyed t -> well_keyed (fold_left (step R sp vp) ms t).
Proof.
  revert t. induction ms as [|m ms IH]; intros t Ht; [exact Ht|].
  simpl. apply IH. unfold optional_step.
  destruct (dict_contains model_eq_dec m t); [exact Ht|].
  destruct (find _ _) as [[d f]|]; [now apply dict_set_well_keyed | exact Ht].
Qed.

Lemma well_keyed_values (t : table) :
  well_keyed t -> map model (dict_values t) = dict_keys t.
Proof.
  unfold dict_values, dict_keys.
  induction 1 as [|[k v] t Hkv Ht IH]; simpl; [reflexivity|].
  simpl in Hkv. now rewrite Hkv, IH.
Qed.

Lemma set_add_fresh (m : PartitionModel) (seen : set PartitionModel) :
  ~ In m seen -> set_add model_eq_dec m seen = seen ++ [m].
Proof.
  induction seen as [|a seen IH]; simpl; intros H; [reflexivity|].
  destruct (model_eq_dec m a) as [->|N]; [exfalso; apply H; now left|].
  rewrite IH; [reflexivity|]. intros Hin. apply H. now right.
Qed.

(** The generic searches append the identities they find, once each, in the
    order in which they are searched. *)
Lemma fold_step_keys (R sp vp : Path) (ms : list PartitionModel) (t : table) :
  dict_keys (fold_left (step R sp vp) ms t) =
  dict_keys t ++
  first_occurrences model_eq_dec (dict_keys t)
    (filter (discovered is_file R sp vp) ms).
Proof.
  revert t. induction ms as [|m ms IH]; intros t.
  - simpl. now rewrite app_nil_r.
  - cbn [fold_left filter]. rewrite IH. unfold optional_step, discovered.
    destruct (dict_contains model_eq_dec m t) eqn:Ec.
    + destruct (find _ _); [|reflexivity].
      cbn [first_occurrences].
      apply dict_contains_iff in Ec.
      now rewrite (proj2 (set_mem_true model_eq_dec m (dict_keys t)) Ec).
    + destruct (find _ _) as [[d f]|]; [|reflexivity].
      cbn [first_occurrences].
      apply dict_contains_false_iff in Ec.
      rewrite (proj2 (set_mem_false model_eq_dec m (dict_keys t)) Ec).
      rewrite set_add_fresh by exact Ec.
      rewrite dict_set_fresh by (now apply dict_contains_false_iff).
      unfold dict_keys. rewrite map_app, <- app_assoc. reflexivity.
Qed.

(** C7: an object returned by the constructor has System and Vendor in its
    table and among the values of [get_all_partitions]; those values come
    in the order of discovery: System, Vendor, then the identities found by
    the generic searches, once each, in the order searched. *)
Theorem constructed_table_has_system_and_vendor_in_order
    (R : Path) (P : Partitions)
    (Hnew : Partitions_new is_file R = inr P) :
  exists sp vp,
    dict_get model_eq_dec SYSTEM (partitions P) = Some (AP SYSTEM sp) /\
    dict_get model_eq_dec VENDOR (partitions P) = Some (AP VENDOR vp) /\
    In (AP SYSTEM sp) (get_all_partitions P) /\
    In (AP VENDOR vp) (get_all_partitions P) /\
    map model (get_all_partitions P) =
      SYSTEM :: VENDOR ::
      first_occurrences model_eq_dec [SYSTEM; VENDOR]
        (filter (discovered is_file R sp vp) optional_models).
Proof.
  pose proof (Partitions_new_run is_file R) as Hrun.
  destruct (find _ _) as [[sp fsys]|]; [|congruence].
  destruct (find _ _) as [[vp fven]|]; [|congruence].
  destruct Hrun as [log Hrun]. rewrite Hrun in Hnew.
  injection Hnew as <-. exists sp, vp.
  unfold get_all_partitions. cbn [partitions].
  assert (Hs : dict_get model_eq_dec SYSTEM
                 (fold_left (step R sp vp) optional_models
                    [(SYSTEM, AP SYSTEM sp); (VENDOR, AP VENDOR vp)])
               = Some (AP SYSTEM sp))
    by apply fold_optional_step_get, get_SYSTEM_initial.
  assert (Hv : dict_get model_eq_dec VENDOR
                 (fold_left (step R sp vp) optional_models
                    [(SYSTEM, AP SYSTEM sp); (VENDOR, AP VENDOR vp)])
               = Some (AP VENDOR vp))
    by apply fold_optional_step_get, get_VENDOR_initial.
  repeat split; try assumption.
  - exact (dict_get_In _ _ _ _ Hs).
  - exact (dict_get_In _ _ _ _ Hv).
  - rewrite well_keyed_values.
    + rewrite fold_step_keys. reflexivity.
    + apply fold_step_well_keyed. repeat constructor.
Qed.
End Table.

(** ** A dump with a system-as-root layout *)

Section Scenario.
Context `{Cat : PartitionCatalog}.
Variable is_file : Path -> bool.

Local Abbreviation AP := mkAndroidPartition.
Local Abbreviation hits := (hit is_file).
Local Abbreviation files := all_prop_locations.

(** A hit at the first candidate ends the search there. *)
Lemma find_at_head (d0 f0 : Path) (rest : list Path) :
  In f0 files -> is_file (d0 / f0) = true ->
  exists f, find hits (all_pairs (d0 :: rest) files) = Some (d0, f).
Proof.
  intros Hin Hhit.
  change (all_pairs (d0 :: rest) files)
    with (map (pair d0) files ++ all_pairs rest files).
  rewrite find_app_hit.
  destruct (find hits (map (pair d0) files)) as [[d f]|] eqn:E.
  - apply find_hit_at in E as Hd. subst d. now exists f.
  - exfalso. pose proof (find_none _ _ E (d0, f0)) as Hn.
    unfold hit in Hn. cbn [fst snd] in Hn.
    rewrite Hhit in Hn. discriminate Hn. now apply in_map.
Qed.

(** A candidate without any property file is passed over. *)
Lemma find_skip_head (d0 : Path) (rest : list Path) :
  (forall f, In f files -> is_file (d0 / f) = false) ->
  find hits (all_pairs (d0 :: rest) files) = find hits (all_pairs rest files).
Proof.
  intros Hnone.
  change (all_pairs (d0 :: rest) files)
    with (map (pair d0) files ++ all_pairs rest files).
  rewrite find_app_hit.
  replace (find hits (map (pair d0) files)) with (@None (Path * Path));
    [reflexivity|].
  symmetry. apply find_none_iff. intros [d f] Hin.
  apply in_map_iff in Hin. destruct Hin as (f' & [= <- <-] & Hf).
  now apply Hnone.
Qed.

Lemma In_extended_catalogue (f : Path) :
  In f get_extended_build_prop_locations -> In f files.
Proof. intros H. apply in_or_app. now right. Qed.

Variable R : Path.

(** The canonical property files are relative paths. *)
Hypothesis canonical_relative :
  Forall (fun f => root f = Relative) BUILD_PROP_LOCATION.

(** The regular files of the dump are [R/vendor/build.prop] and
    [R/system/system/build.prop], and no others. *)
Hypothesis two_files :
  forall p, is_file p = true <->
            p = R / "vendor" / "build.prop" \/
            p = R / "system" / "system" / "build.prop".

Lemma system_found_at_system :
  exists f,
    find hits (all_pairs (system_search_locations R) files) = Some (R / "system", f).
Proof.
  unfold system_search_locations.
  destruct (get_extended_search_locations_head R "system") as [rest ->].
  apply (find_at_head _ (of_string "system/build.prop")).
  - apply In_extended_catalogue. simpl. tauto.
  - apply two_files. right. destruct R as [r P]. norm_paths. reflexivity.
Qed.

Lemma nothing_under_system_vendor (f : Path) :
  In f files -> is_file (R / "system" / "vendor" / f) = false.
Proof.
  intros Hin.
  destruct (is_file (R / "system" / "vendor" / f)) eqn:E; [exfalso | reflexivity].
  apply two_files in E. clear two_files.
  apply in_app_or in Hin. destruct Hin as [Hin|Hin].
  - rewrite Forall_forall in canonical_relative.
    apply canonical_relative in Hin. destruct f as [rf pf]. cbn [root] in Hin.
    subst rf. destruct R as [r P].
    destruct E as [E|E]; norm_paths; path_neq E.
  - destruct R as [r P]. unfold get_extended_build_prop_locations in Hin.
    cbn [map In] in Hin.
    repeat (destruct Hin as [<-|Hin];
            [destruct E as [E|E]; norm_paths; path_neq E|]).
    contradiction.
Qed.

Lemma vendor_found_at_vendor :
  exists f,
    find hits (all_pairs (vendor_search_locations R (R / "system")) files) =
    Some (R / "vendor", f).
Proof.
  unfold vendor_search_locations.
  rewrite find_skip_head by apply nothing_under_system_vendor.
  destruct (get_extended_search_locations_head R "vendor") as [rest ->].
  apply (find_at_head _ (of_string "build.prop")).
  - apply In_extended_catalogue. simpl. tauto.
  - apply two_files. now left.
Qed.

(** C5, as the code has it: in a dump whose only regular files are
    R/vendor/build.prop and R/system/system/build.prop, construction succeeds
    with System at R/system (where the catalogue entry system/build.prop
    matches) and Vendor at R/vendor. *)
Theorem system_as_root_dump_resolves_to_system_and_vendor :
  exists P,
    Partitions_new is_file R = inr P /\
    system P = Some (AP SYSTEM (R / "system")) /\
    vendor P = Some (AP VENDOR (R / "vendor")) /\
    get_partition P (Some SYSTEM) = Some (AP SYSTEM (R / "system")) /\
    get_partition P (Some VENDOR) = Some (AP VENDOR (R / "vendor")).
Proof.
  pose proof (Partitions_new_run is_file R) as Hrun.
  destruct system_found_at_system as [fsys Hs]. rewrite Hs in Hrun.
  destruct vendor_found_at_vendor as [fven Hv]. rewrite Hv in Hrun.
  destruct Hrun as [log Hrun]. eexists. split; [exact Hrun|].
  cbn [system vendor get_partition partitions].
  unfold dict_contains.
  rewrite (fold_optional_step_get is_file _ _ _ _ _ SYSTEM _
             (get_SYSTEM_initial _ _)).
  rewrite (fold_optional_step_get is_file _ _ _ _ _ VENDOR _
             (get_VENDOR_initial _ _)).
  repeat split.
Qed.
End Scenario.

(** ** The generic search looks at the root candidate twice *)

Section Repeats.
Context `{Cat : PartitionCatalog}.
Variable is_file : Path -> bool.

Local Abbreviation files := all_prop_locations.

(** A generic extended search that finds nothing asks for every property
    file of [dump_path / name] twice: the generator lists that directory
    first, and the search appends it again after the duplicates were
    removed. *)
Lemma extended_search_probes_root_candidate_twice
    (m : PartitionModel) (self : Partitions) (sys ven : AndroidPartition) :
  dict_get model_eq_dec SYSTEM (partitions self) = Some sys ->
  dict_get model_eq_dec VENDOR (partitions self) = Some ven ->
  dict_contains model_eq_dec m (partitions self) = false ->
  (forall d f,
     In d (possible_locations (dump_path self) (path sys) (path ven) m) ->
     In f files -> is_file (d / f) = false) ->
  exists log,
    probed (snd (_search_for_partition_extended is_file m self)) =
    probed self ++ log /\ ~ NoDup log.
Proof.
  intros Hs Hv Habsent Hnone.
  rewrite (search_for_partition_extended_run is_file m self sys ven Hs Hv).
  rewrite Habsent. cbn [snd]. unfold searched. cbn [probed].
  rewrite take_until_no_hit by (now apply no_file_no_hit).
  eexists. split; [reflexivity|].
  unfold possible_locations.
  destruct (get_extended_search_locations_head (dump_path self) (model_name m))
    as [rest ->].
  change (all_pairs (((dump_path self / model_name m) :: rest) ++ ?tail) files)
    with (map (pair (dump_path self / model_name m)) files ++
          all_pairs (rest ++ tail) files).
  intros Hnd.
  apply (NoDup_app_disjoint _ _
           (dump_path self / model_name m, of_string "build.prop") Hnd).
  - apply in_map. apply in_or_app. right. now left.
  - unfold all_pairs. apply in_flat_map.
    exists (dump_path self / model_name m). split.
    + apply in_or_app. right. simpl. tauto.
    + apply in_map. apply in_or_app. right. now left.
Qed.
End Repeats.

(** ** Runs on the sample dump *)

Import Sample.

Lemma no_file_among_spec (is_file : Path -> bool) (locs fs : list Path) :
  no_file_among is_file locs fs = true ->
  forall d f, In d locs -> In f fs -> is_file (d / f) = false.
Proof.
  unfold no_file_among. intros H d f Hd Hf.
  rewrite forallb_forall in H. specialize (H d Hd).
  rewrite forallb_forall in H. specialize (H f Hf).
  now apply negb_true_iff in H.
Defined.

(** C4 does not hold of the code: in the plain dump the search for Product
    finds nothing and asks twice whether [/dump/product/default.prop] is a
    file, once for the first candidate of the generator and once for the
    candidate [dump_path / name] appended after the duplicates were removed;
    the log of that search has repetitions, and so has the log of the whole
    construction. *)
Theorem extended_search_repeats_a_probe_on_plain_dump :
  let repeated := (of_string "/dump/product", of_string "default.prop") in
  let log := probed (snd (_search_for_partition_extended plain_fs Product ready)) in
  (exists P,
     Partitions_new plain_fs dump = inr P /\
     partitions P = partitions ready /\
     count_occ probe_eq_dec (probed P) repeated = 2) /\
  count_occ probe_eq_dec log repeated = 2 /\
  ~ NoDup log.
Proof.
  intros repeated log. split; [|split].
  - exists (constructed plain_fs dump). vm_compute. repeat split.
  - vm_compute. reflexivity.
  - intros Hnd. rewrite (NoDup_count_occ probe_eq_dec) in Hnd.
    specialize (Hnd repeated). vm_compute in Hnd. lia.
Qed.

(** C5, as stated, fails: in the system-as-root dump under [/dump] the
    constructor does not put System at [/dump/system/system]. *)
Lemma system_as_root_dump_system_is_not_nested :
  ~ (exists P,
       Partitions_new system_as_root_fs dump = inr P /\
       option_map path (system P) = Some (dump / "system" / "system") /\
       option_map path (vendor P) = Some (dump / "vendor")).
Proof.
  intros (P & HP & Hs & _).
  apply (f_equal (fun r => match r with
                           | inr Q => option_map path (system Q)
                           | inl _ => None
                           end)) in HP.
  rewrite Hs in HP. vm_compute in HP. discriminate HP.
Qed.

Lemma system_as_root_dump_resolves_witness :
  exists P,
    Partitions_new system_as_root_fs dump = inr P /\
    system P = Some (mkAndroidPartition SYSTEM (dump / "system")) /\
    vendor P = Some (mkAndroidPartition VENDOR (dump / "vendor")) /\
    get_partition P (Some SYSTEM) = Some (mkAndroidPartition SYSTEM (dump / "system")) /\
    get_partition P (Some VENDOR) = Some (mkAndroidPartition VENDOR (dump / "vendor")).
Proof.
  apply (@system_as_root_dump_resolves_to_system_and_vendor catalog system_as_root_fs dump).
  - repeat constructor.
  - intros p. unfold system_as_root_fs, files_fs.
    destruct (in_dec Path_eq_dec p _) as [H|H]; split; intros G;
      try reflexivity; try discriminate G.
    + destruct H as [H|[H|[]]]; [left | right]; rewrite <- H; reflexivity.
    + exfalso. apply H. destruct G as [->| ->]; [left | right; left]; reflexivity.
Defined.

Lemma extended_search_first_match_wins_witness :
  _search_for_partition_extended product_fs Product ready =
  (Ok tt,
   mkPartitions dump
     (dict_set model_eq_dec Product
        (mkAndroidPartition Product (of_string "/dump/product"))
        (partitions ready))
     (system ready) (vendor ready)
     (probed ready ++
      [(of_string "/dump/product", of_string "build.prop")] ++
      [(of_string "/dump/product", of_string "etc/build.prop")])).
Proof.
  apply (@extended_search_first_match_wins catalog product_fs Product ready
           system_partition vendor_partition
           [(of_string "/dump/product", of_string "build.prop")]
           (skipn 2
              (all_pairs
                 (possible_locations (Cat := catalog) dump (path system_partition)
                    (path vendor_partition) Product)
                 all_prop_locations))
           (of_string "/dump/product") (of_string "etc/build.prop")).
  - reflexivity.
  - reflexivity.
  - reflexivity.
  - vm_compute. reflexivity.
  - repeat constructor.
  - vm_compute. reflexivity.
Defined.

Lemma mandatory_partition_missing_is_fatal_witness :
  Partitions_new (files_fs []) dump =
    inl (AssertionError "System partition not found. Searched in: "
           (map str (system_search_locations dump))) /\
  Partitions_new (files_fs ["/dump/system/build.prop"]) dump =
    inl (AssertionError "Vendor partition not found. Searched in: "
           (map str (vendor_search_locations dump (of_string "/dump/system")))).
Proof.
  split.
  - apply (proj1 (@mandatory_partition_missing_is_fatal catalog (files_fs []) dump)).
    intros d f _ _. reflexivity.
  - apply (proj2 (@mandatory_partition_missing_is_fatal catalog
                    (files_fs ["/dump/system/build.prop"]) dump)
             (of_string "/dump/system") (of_string "build.prop")).
    + vm_compute. reflexivity.
    + apply no_file_among_spec. vm_compute. reflexivity.
Defined.

Lemma constructed_table_witness :
  exists sp vp,
    dict_get model_eq_dec SYSTEM (partitions (constructed product_fs dump)) =
      Some (mkAndroidPartition SYSTEM sp) /\
    dict_get model_eq_dec VENDOR (partitions (constructed product_fs dump)) =
      Some (mkAndroidPartition VENDOR vp) /\
    In (mkAndroidPartition SYSTEM sp) (get_all_partitions (constructed product_fs dump)) /\
    In (mkAndroidPartition VENDOR vp) (get_all_partitions (constructed product_fs dump)) /\
    map model (get_all_partitions (constructed product_fs dump)) =
      SYSTEM :: VENDOR ::
      first_occurrences model_eq_dec [SYSTEM; VENDOR]
        (filter (discovered product_fs dump sp vp) optional_models).
Proof.
  apply (@constructed_table_has_system_and_vendor_in_order catalog product_fs dump
           (constructed product_fs dump)).
  vm_compute. reflexivity.
Defined.

Lemma optional_partition_not_found_witness :
  exists P,
    Partitions_new plain_fs dump = inr P /\
    dict_contains model_eq_dec Product (partitions P) = false /\
    get_partition P (Some Product) = None.
Proof.
  apply (@optional_partition_not_found_is_absent catalog plain_fs dump
           (of_string "/dump/system") (of_string "build.prop")
           (of_string "/dump/vendor") (of_string "build.prop") Product).
  - vm_compute. reflexivity.
  - vm_compute. reflexivity.
  - discriminate.
  - discriminate.
  - apply no_file_among_spec. vm_compute. reflexivity.
Defined.

Lemma unknown_name_is_absent_witness :
  get_partition_by_name ready "unknown_partition" = None.
Proof. apply (@unknown_name_is_absent catalog ready "unknown_partition"). reflexivity. Defined.

Lemma extended_search_keeps_present_entry_witness :
  snd (_search_for_partition_extended plain_fs Vendor ready) = ready.
Proof. apply (@extended_search_keeps_present_entry catalog plain_fs Vendor ready). reflexivity. Defined.

(** * Further properties *)

(** ** More on the candidate-location generator *)

Section GeneratorFacts.

Lemma joinpath_rooted (p q : Path) : root q <> Relative -> p / q = q.
Proof. unfold joinpath. destruct (root q); [contradiction | reflexivity | reflexivity]. Qed.

Lemma first_occurrences_all_seen (seen : set Path) (l : list Path) :
  (forall x, In x l -> In x seen) -> first_occurrences Path_eq_dec seen l = [].
Proof.
  induction l as [|x l IH]; intros H; [reflexivity|].
  simpl. rewrite (proj2 (set_mem_true Path_eq_dec x seen) (H x (or_introl eq_refl))).
  apply IH. intros y Hy. apply H. now right.
Qed.

Lemma first_occurrences_from_empty (x : Path) (l : list Path) :
  first_occurrences Path_eq_dec [] (x :: l) =
  x :: first_occurrences Path_eq_dec [x] l.
Proof. reflexivity. Qed.

Lemma first_occurrences_incl_length (l bound : list Path) :
  incl l bound ->
  List.length (first_occurrences Path_eq_dec [] l) <= List.length bound.
Proof.
  intros H. apply NoDup_incl_length; [apply first_occurrences_NoDup|].
  intros x Hx. apply first_occurrences_In in Hx. apply H. tauto.
Qed.

End GeneratorFacts.

Ltac In_list := cbn [In]; auto 20.

Lemma generator_bound (R : Path) (N : string) :
  List.length (get_extended_search_locations R N) <= 9.
Proof.
  rewrite get_extended_search_locations_eq. unfold raw_search_locations.
  destruct (String.eqb N "system") eqn:E1;
    [apply String.eqb_eq in E1; subst N|];
    [|destruct (String.eqb N "vendor") eqn:E2;
      [apply String.eqb_eq in E2; subst N|]].
  - apply (first_occurrences_incl_length _
             [ R / "system"; R / "system" / "system";
               R / "boot" / "ramdisk" / "system";
               R / "recovery" / "ramdisk" / "system";
               R / "vendor_boot" / "ramdisk" / "system";
               parent R / "ramdisk" / "system";
               parent R / "vendor_ramdisk" / "system";
               parent R / "system"; parent (parent R) / "system" ]).
    intros x Hx. cbn [app In] in Hx.
    repeat (destruct Hx as [<-|Hx]; [In_list|]). contradiction.
  - etransitivity;
      [apply (first_occurrences_incl_length _
                [ R / "vendor";
                  R / "boot" / "ramdisk" / "vendor";
                  R / "recovery" / "ramdisk" / "vendor";
                  R / "vendor_boot" / "ramdisk" / "vendor";
                  parent R / "ramdisk" / "vendor";
                  parent R / "vendor_ramdisk" / "vendor";
                  parent R / "vendor"; parent (parent R) / "vendor" ])
      | simpl; lia].
    intros x Hx. cbn [app In] in Hx.
    repeat (destruct Hx as [<-|Hx]; [In_list|]). contradiction.
  - apply (first_occurrences_incl_length _
             [ R / N; R / N / N;
               R / "boot" / "ramdisk" / N;
               R / "recovery" / "ramdisk" / N;
               R / "vendor_boot" / "ramdisk" / N;
               parent R / N;
               parent R / "ramdisk" / N;
               parent R / "vendor_ramdisk" / N;
               parent (parent R) / N ]).
    intros x Hx. cbn [app In] in Hx.
    repeat (destruct Hx as [<-|Hx]; [In_list|]). contradiction.
Qed.

(** X1: whatever the root and the name, the generator returns at least one
    candidate and at most nine, and the first one is the directory of that
    name under the root. *)
Theorem generator_between_one_and_nine_candidates (R : Path) (N : string) :
  1 <= List.length (get_extended_search_locations R N) <= 9 /\
  hd_error (get_extended_search_locations R N) = Some (R / N).
Proof.
  pose proof (generator_bound R N) as Hbound.
  destruct (get_extended_search_locations_head R N) as [rest Hhead].
  rewrite Hhead in *. simpl in *. repeat split; lia.
Qed.

(** X2: for every root, the candidates for ["system"] begin with R/system and
    R/system/system, in that order. *)
Theorem system_candidates_first_two (R : Path) :
  firstn 2 (get_extended_search_locations R "system") =
    [ R / "system"; R / "system" / "system" ].
Proof.
  rewrite get_extended_search_locations_eq.
  match goal with
  | |- firstn _ (first_occurrences _ _ ?raw) = ?two =>
      change raw with (two ++ skipn 2 raw);
      change 2 with (List.length two)
  end.
  apply first_occurrences_prefix; [|intros ? _ []].
  destruct R as [r P]. norm_paths.
  repeat (constructor; [intros H; cbn [In] in H; In_cases H; path_neq H|]).
  constructor.
Qed.

(** X3: for a root whose last component is neither ["ramdisk"] nor
    ["vendor_ramdisk"], the candidates for ["system"] begin with the seven
    system-specific locations, in the order in which the code lists them. *)
Theorem system_candidates_prefix (R : Path)
    (Hramdisk : name R <> "ramdisk")
    (Hvendor_ramdisk : name R <> "vendor_ramdisk") :
  firstn 7 (get_extended_search_locations R "system") =
    [ R / "system";
      R / "system" / "system";
      R / "boot" / "ramdisk" / "system";
      R / "recovery" / "ramdisk" / "system";
      R / "vendor_boot" / "ramdisk" / "system";
      parent R / "ramdisk" / "system";
      parent R / "vendor_ramdisk" / "system" ].
Proof.
  rewrite get_extended_search_locations_eq.
  match goal with
  | |- firstn _ (first_occurrences _ _ ?raw) = ?seven =>
      change raw with (seven ++ skipn 7 raw);
      change 7 with (List.length seven)
  end.
  apply first_occurrences_prefix; [|intros ? _ []].
  split_root R; unfold name in *; cbn [parts] in *;
    rewrite ?last_last in *; norm_paths;
    repeat (constructor; [intros H; cbn [In] in H; In_cases H; path_neq H|]);
    constructor.
Qed.

Lemma system_candidates_prefix_witness :
  firstn 7 (get_extended_search_locations (of_string "/a/dump") "system") =
    map of_string
      [ "/a/dump/system"; "/a/dump/system/system";
        "/a/dump/boot/ramdisk/system"; "/a/dump/recovery/ramdisk/system";
        "/a/dump/vendor_boot/ramdisk/system";
        "/a/ramdisk/system"; "/a/vendor_ramdisk/system" ].
Proof.
  refine (system_candidates_prefix (of_string "/a/dump") _ _);
    vm_compute; discriminate.
Defined.

(** X4: a name that parses to a rooted path makes every candidate that very
    path: the generator returns it alone, whatever the root. *)
Theorem rooted_name_is_the_only_candidate (R : Path) (N : string)
    (Hrooted : root (of_string N) <> Relative) :
  get_extended_search_locations R N = [of_string N].
Proof.
  rewrite get_extended_search_locations_eq. unfold raw_search_locations.
  destruct (String.eqb N "system") eqn:E1;
    [apply String.eqb_eq in E1; subst N; exfalso; now apply Hrooted|].
  destruct (String.eqb N "vendor") eqn:E2;
    [apply String.eqb_eq in E2; subst N; exfalso; now apply Hrooted|].
  rewrite !(joinpath_rooted _ (of_string N)) by exact Hrooted.
  cbn [app]. rewrite first_occurrences_from_empty. f_equal.
  apply first_occurrences_all_seen. intros x Hx. cbn [In] in *.
  repeat (destruct Hx as [<-|Hx]; [now left|]). contradiction.
Qed.

Lemma rooted_name_is_the_only_candidate_witness :
  get_extended_search_locations (of_string "/a/dump") "/odm" = [of_string "/odm"].
Proof.
  apply (rooted_name_is_the_only_candidate (of_string "/a/dump") "/odm").
  vm_compute. discriminate.
Defined.

(** The components between a known front and the name at the end. *)
Ltac strip_tail t ns :=
  lazymatch t with
  | ns => constr:(@nil string)
  | ?u ++ ns => constr:(u)
  | ?a :: ?t' => let m := strip_tail t' ns in constr:(a :: m)
  end.

Ltac find_mid :=
  lazymatch goal with
  | |- exists mid, ?pre ++ ?t = ?pre ++ mid ++ ?ns =>
      let m := strip_tail t ns in exists m; reflexivity
  | |- exists mid, ?t = mid ++ ?ns =>
      let m := strip_tail t ns in exists m; reflexivity
  end.

(** X5: for a name that parses to a relative path, every candidate has the
    root of the dump root, lies under the parent of its parent, and ends in
    the components of the name: the search looks outside the dump root, but
    never above its grandparent. *)
Theorem candidates_stay_under_grandparent (R : Path) (N : string) (c : Path)
    (Hrelative : root (of_string N) = Relative)
    (Hc : In c (get_extended_search_locations R N)) :
  root c = root R /\
  exists mid, parts c = parts (parent (parent R)) ++ mid ++ parts (of_string N).
Proof.
  rewrite get_extended_search_locations_eq in Hc.
  apply first_occurrences_In in Hc. destruct Hc as [Hc _].
  unfold raw_search_locations in Hc.
  destruct (String.eqb N "system") eqn:E1;
    [apply String.eqb_eq in E1; subst N|];
    [|destruct (String.eqb N "vendor") eqn:E2;
      [apply String.eqb_eq in E2; subst N|]].
  - split_root R; norm_paths; cbn [app In] in Hc; In_cases Hc; subst c;
      cbn [root parts app]; (split; [reflexivity | find_mid]).
  - split_root R; norm_paths; cbn [app In] in Hc; In_cases Hc; subst c;
      cbn [root parts app]; (split; [reflexivity | find_mid]).
  - clear E1 E2. destruct (of_string N) as [rn ns]. cbn [root] in Hrelative.
    subst rn.
    split_root R; norm_paths; cbn [app In] in Hc; In_cases Hc; subst c;
      cbn [root parts app]; (split; [reflexivity | find_mid]).
Qed.

Lemma candidates_stay_under_grandparent_witness :
  root (of_string "/a/b/ramdisk/odm") = root (of_string "/a/b/dump") /\
  exists mid,
    parts (of_string "/a/b/ramdisk/odm") =
    parts (parent (parent (of_string "/a/b/dump"))) ++ mid ++ parts (of_string "odm").
Proof.
  apply (candidates_stay_under_grandparent (of_string "/a/b/dump") "odm"
           (of_string "/a/b/ramdisk/odm")).
  - reflexivity.
  - vm_compute. tauto.
Defined.

(** ** More on the searches *)

Section SearchFacts.
Context `{Cat : PartitionCatalog}.
Variable is_file : Path -> bool.

Local Abbreviation AP := mkAndroidPartition.
Local Abbreviation hits := (hit is_file).
Local Abbreviation files := all_prop_locations.

Lemma take_until_length {A} (p : A -> bool) (l : list A) :
  List.length (take_until p l) <= List.length l.
Proof.
  induction l as [|x l IH]; simpl; [lia|]. destruct (p x); simpl; lia.
Qed.

Lemma take_until_In {A} (p : A -> bool) (l : list A) (x : A) :
  In x (take_until p l) -> In x l.
Proof.
  induction l as [|y l IH]; simpl; [tauto|].
  intros [->|H]; [now left|]. destruct (p y); [contradiction | right; auto].
Qed.

Lemma all_pairs_length {A B} (a : list A) (b : list B) :
  List.length (all_pairs a b) = List.length a * List.length b.
Proof.
  unfold all_pairs. induction a as [|x a IH]; simpl; [reflexivity|].
  now rewrite length_app, length_map, IH.
Qed.

Lemma In_all_pairs {A B} (a : list A) (b : list B) (x : A) (y : B) :
  In (x, y) (all_pairs a b) <-> In x a /\ In y b.
Proof.
  unfold all_pairs. rewrite in_flat_map. split.
  - intros (x' & Hx & Hy). apply in_map_iff in Hy.
    destruct Hy as (y' & [= -> ->] & Hy). now split.
  - intros [Hx Hy]. exists x. split; [exact Hx | now apply in_map].
Qed.

Lemma dict_set_set (m : PartitionModel) (v v' : AndroidPartition)
    (t : dict PartitionModel AndroidPartition) :
  dict_set model_eq_dec m v (dict_set model_eq_dec m v' t) =
  dict_set model_eq_dec m v t.
Proof.
  induction t as [|[k w] t IH]; simpl.
  - now destruct (model_eq_dec m m).
  - destruct (model_eq_dec m k) as [E|N]; simpl.
    + now destruct (model_eq_dec m m).
    + destruct (model_eq_dec m k); [contradiction | now rewrite IH].
Qed.

Lemma dict_set_keys_present (m : PartitionModel) (v : AndroidPartition)
    (t : dict PartitionModel AndroidPartition) :
  dict_contains model_eq_dec m t = true ->
  dict_keys (dict_set model_eq_dec m v t) = dict_keys t.
Proof.
  unfold dict_contains, dict_keys. induction t as [|[k w] t IH]; simpl; [discriminate|].
  destruct (model_eq_dec m k) as [->|N]; simpl; [reflexivity|].
  intros H. now rewrite IH.
Qed.

(** X6: without a System entry in the table, both searches raise
    [KeyError] for System before they look at any file, and leave the object
    as it was. *)
Theorem searches_raise_without_system (m : PartitionModel) (self : Partitions)
    (Hmissing : dict_get model_eq_dec SYSTEM (partitions self) = None) :
  _search_for_partition_extended is_file m self = (Raise (KeyError SYSTEM), self) /\
  _search_for_partition is_file m self = (Raise (KeyError SYSTEM), self).
Proof.
  unfold _search_for_partition_extended, _search_for_partition.
  unfold bind, get_dump_path, getitem. now rewrite Hmissing.
Qed.

(** X7: with a System entry but no Vendor entry, both searches raise
    [KeyError] for Vendor before they look at any file, and leave the object
    as it was. *)
Theorem searches_raise_without_vendor (m : PartitionModel) (self : Partitions)
    (sys : AndroidPartition)
    (Hsys : dict_get model_eq_dec SYSTEM (partitions self) = Some sys)
    (Hmissing : dict_get model_eq_dec VENDOR (partitions self) = None) :
  _search_for_partition_extended is_file m self = (Raise (KeyError VENDOR), self) /\
  _search_for_partition is_file m self = (Raise (KeyError VENDOR), self).
Proof.
  unfold _search_for_partition_extended, _search_for_partition.
  unfold bind, get_dump_path, getitem. now rewrite Hsys, Hmissing.
Qed.

(** X8: one generic extended search calls [is_file] at most twelve times per
    property file of the combined list, and only for a candidate of the
    identity joined with a property file of that list. *)
Theorem extended_search_probe_bound (m : PartitionModel) (self : Partitions)
    (sys ven : AndroidPartition)
    (Hsys : dict_get model_eq_dec SYSTEM (partitions self) = Some sys)
    (Hven : dict_get model_eq_dec VENDOR (partitions self) = Some ven) :
  exists log,
    probed (snd (_search_for_partition_extended is_file m self)) =
      probed self ++ log /\
    List.length log <= 12 * List.length files /\
    forall d f, In (d, f) log ->
      In d (possible_locations (dump_path self) (path sys) (path ven) m) /\
      In f files.
Proof.
  rewrite (search_for_partition_extended_run is_file m self sys ven Hsys Hven).
  destruct (dict_contains model_eq_dec m (partitions self)).
  - exists []. cbn [snd]. rewrite app_nil_r. split; [reflexivity|].
    split; [simpl; lia | intros d f []].
  - cbn [snd]. unfold searched. cbn [probed]. eexists. split; [reflexivity|].
    split.
    + etransitivity; [apply take_until_length|]. rewrite all_pairs_length.
      apply Nat.mul_le_mono_r. unfold possible_locations.
      rewrite length_app. cbn [List.length].
      pose proof (generator_bound (dump_path self) (model_name m)). lia.
    + intros d f Hin. apply take_until_In in Hin. now apply In_all_pairs in Hin.
Qed.

Lemma legacy_inner_run (m : PartitionModel) (loc : Path) (fs : list Path)
    (s : Partitions) :
  legacy_inner is_file m loc fs s = (Ok tt, searched is_file m (map (pair loc) fs) s).
Proof.
  revert s. induction fs as [|f fs IH]; intros s.
  - simpl. unfold ret. now rewrite searched_nil.
  - cbn [legacy_inner map]. rewrite searched_cons.
    unfold bind at 1, probe.
    destruct (is_file (loc / f)).
    + reflexivity.
    + apply IH.
Qed.

(** What the walk of one directory finds, in terms of the directory. *)
Lemma find_in_directory (loc : Path) (fs : list Path) :
  match find hits (map (pair loc) fs) with
  | Some (d, _) => d = loc /\ holds_one_of is_file fs loc = true
  | None => holds_one_of is_file fs loc = false
  end.
Proof.
  unfold holds_one_of. induction fs as [|f fs IH]; simpl; [reflexivity|].
  unfold hit at 1. cbn [fst snd].
  destruct (is_file (loc / f)); simpl; [now split | exact IH].
Qed.

Lemma legacy_outer_run (m : PartitionModel) (fs locs : list Path) (s : Partitions) :
  legacy_outer is_file m fs locs s =
  (Ok tt,
   mkPartitions (dump_path s)
     (match find (holds_one_of is_file fs) (rev locs) with
      | Some d => dict_set model_eq_dec m (AP m d) (partitions s)
      | None => partitions s
      end)
     (system s) (vendor s)
     (probed s ++ probes_per_directory is_file fs locs)).
Proof.
  revert s. induction locs as [|loc locs IH]; intros s.
  - simpl. unfold ret. destruct s. simpl. now rewrite app_nil_r.
  - cbn [legacy_outer]. erewrite bind_ok by apply legacy_inner_run.
    rewrite IH. unfold searched. cbn [dump_path partitions system vendor probed].
    f_equal. cbn [rev]. rewrite find_app_hit. cbn [find].
    unfold probes_per_directory. cbn [flat_map]. rewrite <- app_assoc.
    pose proof (find_in_directory loc fs) as Hdir.
    fold hits. f_equal. clear IH.
    destruct (find (holds_one_of is_file fs) (rev locs)) as [d|];
      destruct (find hits (map (pair loc) fs)) as [[d' f']|].
    + apply dict_set_set.
    + reflexivity.
    + destruct Hdir as [-> Hdir]. now rewrite Hdir.
    + now rewrite Hdir.
Qed.

(** The legacy search, on an object that has System and Vendor. *)
Lemma search_for_partition_run (m : PartitionModel) (self : Partitions)
    (sys ven : AndroidPartition) :
  dict_get model_eq_dec SYSTEM (partitions self) = Some sys ->
  dict_get model_eq_dec VENDOR (partitions self) = Some ven ->
  _search_for_partition is_file m self =
  legacy_outer is_file m BUILD_PROP_LOCATION
    (legacy_locations (dump_path self) (path sys) (path ven) m) self.
Proof.
  intros Hsys Hven. unfold _search_for_partition.
  unfold bind at 1, getitem. rewrite Hsys. unfold bind at 1. rewrite Hven.
  reflexivity.
Qed.

(** X9: the legacy search walks all three of its candidates, each up to its
    first canonical property file, and never stops early: the directory it
    records is the last candidate that holds a canonical property file, and
    nothing is recorded when none does. *)
Theorem legacy_search_last_match_wins (m : PartitionModel) (self : Partitions)
    (sys ven : AndroidPartition)
    (Hsys : dict_get model_eq_dec SYSTEM (partitions self) = Some sys)
    (Hven : dict_get model_eq_dec VENDOR (partitions self) = Some ven) :
  let locs := legacy_locations (dump_path self) (path sys) (path ven) m in
  _search_for_partition is_file m self =
  (Ok tt,
   mkPartitions (dump_path self)
     (match find (holds_one_of is_file BUILD_PROP_LOCATION) (rev locs) with
      | Some d => dict_set model_eq_dec m (AP m d) (partitions self)
      | None => partitions self
      end)
     (system self) (vendor self)
     (probed self ++ probes_per_directory is_file BUILD_PROP_LOCATION locs)).
Proof.
  intros locs. rewrite (search_for_partition_run m self sys ven Hsys Hven).
  apply legacy_outer_run.
Qed.

(** X10: the legacy search replaces an entry that is there already: when the
    identity is in the table and some candidate holds a canonical property
    file, the entry afterwards is the last such candidate, at the place in
    the table the identity had before. *)
Theorem legacy_search_overwrites_present_entry (m : PartitionModel)
    (self : Partitions) (sys ven : AndroidPartition) (d : Path)
    (Hsys : dict_get model_eq_dec SYSTEM (partitions self) = Some sys)
    (Hven : dict_get model_eq_dec VENDOR (partitions self) = Some ven)
    (Hpresent : dict_contains model_eq_dec m (partitions self) = true)
    (Hlast : find (holds_one_of is_file BUILD_PROP_LOCATION)
               (rev (legacy_locations (dump_path self) (path sys) (path ven) m))
             = Some d) :
  let after := snd (_search_for_partition is_file m self) in
  get_partition after (Some m) = Some (AP m d) /\
  dict_keys (partitions after) = dict_keys (partitions self).
Proof.
  intros after. subst after.
  rewrite (search_for_partition_run m self sys ven Hsys Hven), legacy_outer_run.
  rewrite Hlast. cbn [snd get_partition partitions].
  rewrite dict_contains_set_same, dict_get_set_same.
  split; [reflexivity | now apply dict_set_keys_present].
Qed.

(** X11: the legacy search calls [is_file] at most three times per canonical
    property file, and only for one of its three candidates joined with a
    canonical property file: the extended catalogue is never consulted. *)
Theorem legacy_search_probe_bound (m : PartitionModel) (self : Partitions)
    (sys ven : AndroidPartition)
    (Hsys : dict_get model_eq_dec SYSTEM (partitions self) = Some sys)
    (Hven : dict_get model_eq_dec VENDOR (partitions self) = Some ven) :
  exists log,
    probed (snd (_search_for_partition is_file m self)) = probed self ++ log /\
    List.length log <= 3 * List.length BUILD_PROP_LOCATION /\
    forall d f, In (d, f) log ->
      In d (legacy_locations (dump_path self) (path sys) (path ven) m) /\
      In f BUILD_PROP_LOCATION.
Proof.
  rewrite (search_for_partition_run m self sys ven Hsys Hven), legacy_outer_run.
  cbn [snd probed]. eexists. split; [reflexivity|].
  unfold probes_per_directory, legacy_locations. cbn [flat_map].
  rewrite app_nil_r. split.
  - rewrite !length_app.
    pose proof (fun d => take_until_length hits (map (pair d) BUILD_PROP_LOCATION)) as H.
    pose proof (H (path sys / model_name m)) as H1.
    pose proof (H (path ven / model_name m)) as H2.
    pose proof (H (dump_path self / model_name m)) as H3.
    rewrite length_map in H1, H2, H3. unfold hit in H1, H2, H3. lia.
  - intros d f Hin. cbn [In].
    repeat (apply in_app_or in Hin; destruct Hin as [Hin|Hin]);
      apply take_until_In in Hin; apply in_map_iff in Hin;
      destruct Hin as (f' & [= <- <-] & Hf); auto.
Qed.
End SearchFacts.

(** ** More on the constructor *)

Section ConstructionFacts.
Context `{Cat : PartitionCatalog}.
Variable is_file : Path -> bool.

Local Abbreviation AP := mkAndroidPartition.
Local Abbreviation hits := (hit is_file).
Local Abbreviation files := all_prop_locations.
Local Abbreviation step := (optional_step is_file).
Local Abbreviation holds := (holds_one_of is_file all_prop_locations).
Local Abbreviation table := (dict PartitionModel AndroidPartition).

(** The table when the generic searches start. *)
Local Abbreviation two sp vp :=
  [(SYSTEM, AP SYSTEM sp); (VENDOR, AP VENDOR vp)].

(** An object returned by the constructor, taken apart. *)
Lemma Partitions_new_inv (R : Path) (P : Partitions) :
  Partitions_new is_file R = inr P ->
  exists sp fsys vp fven log,
    find hits (all_pairs (system_search_locations R) files) = Some (sp, fsys) /\
    find hits (all_pairs (vendor_search_locations R sp) files) = Some (vp, fven) /\
    P = mkPartitions R (fold_left (step R sp vp) optional_models (two sp vp))
          (Some (AP SYSTEM sp)) (Some (AP VENDOR vp)) log.
Proof.
  intros Hnew. pose proof (Partitions_new_run is_file R) as Hrun.
  destruct (find hits (all_pairs (system_search_locations R) files))
    as [[sp fsys]|] eqn:Es; [|congruence].
  destruct (find hits (all_pairs (vendor_search_locations R sp) files))
    as [[vp fven]|] eqn:Ev; [|congruence].
  destruct Hrun as [log Hrun]. rewrite Hrun in Hnew. injection Hnew as <-.
  exists sp, fsys, vp, fven, log. repeat split; assumption.
Qed.

(** The first pair that hits lies in the first directory that holds a file. *)
Lemma find_hit_directory (fs locs : list Path) :
  option_map fst (find hits (all_pairs locs fs)) =
  find (holds_one_of is_file fs) locs.
Proof.
  induction locs as [|loc locs IH]; [reflexivity|].
  change (all_pairs (loc :: locs) fs) with (map (pair loc) fs ++ all_pairs locs fs).
  rewrite find_app_hit. cbn [find].
  pose proof (find_in_directory is_file loc fs) as Hdir.
  destruct (find hits (map (pair loc) fs)) as [[d f]|].
  - destruct Hdir as [-> ->]. reflexivity.
  - rewrite Hdir. exact IH.
Qed.

Lemma get_partition_eq (P : Partitions) (m : PartitionModel) :
  get_partition P (Some m) = dict_get model_eq_dec m (partitions P).
Proof.
  unfold get_partition, dict_contains.
  now destruct (dict_get model_eq_dec m (partitions P)).
Qed.

Lemma dict_set_Forall (Q : PartitionModel * AndroidPartition -> Prop)
    (k : PartitionModel) (v : AndroidPartition) (t : table) :
  Forall Q t -> Q (k, v) -> Forall Q (dict_set model_eq_dec k v t).
Proof.
  intros Ht Hkv. induction Ht as [|[k' v'] t Hq Ht IH]; simpl.
  - now constructor.
  - destruct (model_eq_dec k k'); constructor; auto.
Qed.

Lemma dict_get_In_pair (k : PartitionModel) (v : AndroidPartition) (t : table) :
  dict_get model_eq_dec k t = Some v -> In (k, v) t.
Proof.
  induction t as [|[k' v'] t IH]; simpl; [discriminate|].
  destruct (model_eq_dec k k') as [->|N]; [intros [= ->]; now left | right; auto].
Qed.

Lemma In_pair_dict_get (k : PartitionModel) (v : AndroidPartition) (t : table) :
  NoDup (dict_keys t) -> In (k, v) t -> dict_get model_eq_dec k t = Some v.
Proof.
  unfold dict_keys. induction t as [|[k' v'] t IH]; simpl; [tauto|].
  intros Hnd [[= -> ->]|Hin].
  - now destruct (model_eq_dec k k).
  - inversion Hnd as [|? ? Hk Hnd']; subst.
    destruct (model_eq_dec k k') as [->|N]; [|now apply IH].
    exfalso. apply Hk. apply in_map_iff. now exists (k', v).
Qed.

Lemma constructed_keys_NoDup (R sp vp : Path) :
  NoDup (dict_keys (fold_left (step R sp vp) optional_models (two sp vp))).
Proof.
  rewrite fold_step_keys. apply NoDup_app.
  - cbn. repeat constructor; cbn; [|tauto].
    intros [E|[]]. now apply SYSTEM_is_not_VENDOR.
  - apply first_occurrences_NoDup.
  - intros k Hk Hin. apply first_occurrences_In in Hin. tauto.
Qed.

Lemma constructed_well_keyed (R sp vp : Path) :
  well_keyed (fold_left (step R sp vp) optional_models (two sp vp)).
Proof. apply fold_step_well_keyed. repeat constructor. Qed.

(** X12: the constructor returns an object or ends in one of its two
    assertion errors; it never lets a [KeyError] escape. *)
Theorem constructor_never_raises_key_error (R : Path) :
  (exists P, Partitions_new is_file R = inr P) \/
  (exists locs,
     Partitions_new is_file R =
     inl (AssertionError "System partition not found. Searched in: " locs)) \/
  (exists locs,
     Partitions_new is_file R =
     inl (AssertionError "Vendor partition not found. Searched in: " locs)).
Proof.
  pose proof (Partitions_new_run is_file R) as Hrun.
  destruct (find hits (all_pairs (system_search_locations R) files))
    as [[sp fsys]|]; [|right; left; eauto].
  destruct (find hits (all_pairs (vendor_search_locations R sp) files))
    as [[vp fven]|]; [|right; right; eauto].
  destruct Hrun as [log Hrun]. left. eauto.
Qed.

(** X13: every partition in the table of a constructed object sits in a
    directory that holds one of the property files of the combined list. *)
Theorem resolved_directories_hold_a_property_file (R : Path) (P : Partitions)
    (e : AndroidPartition)
    (Hnew : Partitions_new is_file R = inr P)
    (He : In e (get_all_partitions P)) :
  exists f, In f files /\ is_file (path e / f) = true.
Proof.
  destruct (Partitions_new_inv R P Hnew)
    as (sp & fsys & vp & fven & log & Hs & Hv & ->).
  unfold get_all_partitions, dict_values in He. cbn [partitions] in He.
  set (Q := fun kv : PartitionModel * AndroidPartition =>
              exists f, In f files /\ is_file (path (snd kv) / f) = true).
  assert (Hhit : forall locs d f,
             find hits (all_pairs locs files) = Some (d, f) ->
             exists f, In f files /\ is_file (d / f) = true).
  { intros locs d f H. apply find_some in H. destruct H as [Hin Hhit].
    apply In_all_pairs in Hin. exists f. tauto. }
  assert (Hall : Forall Q (fold_left (step R sp vp) optional_models (two sp vp))).
  { assert (H0 : Forall Q (two sp vp)).
    { repeat constructor; unfold Q; cbn [snd path]; eauto. }
    revert H0. generalize (two sp vp). generalize optional_models.
    intros ms. induction ms as [|m ms IH]; intros t Ht; [exact Ht|].
    cbn [fold_left]. apply IH. unfold optional_step.
    destruct (dict_contains model_eq_dec m t); [exact Ht|].
    destruct (find hits (all_pairs (possible_locations R sp vp m) files))
      as [[d f]|] eqn:E; [|exact Ht].
    apply dict_set_Forall; [exact Ht|]. unfold Q. cbn [snd path]. eauto. }
  apply in_map_iff in He. destruct He as ([k v] & <- & Hin).
  rewrite Forall_forall in Hall. exact (Hall _ Hin).
Qed.

(** X14: in a constructed object no two partitions carry the same identity,
    [get_partition] returns for an identity a partition of that identity, and
    [get_all_partitions] lists exactly the partitions [get_partition] can
    return. *)
Theorem accessors_agree_on_constructed_object (R : Path) (P : Partitions)
    (Hnew : Partitions_new is_file R = inr P) :
  NoDup (map model (get_all_partitions P)) /\
  (forall m e, get_partition P (Some m) = Some e -> model e = m) /\
  (forall e, In e (get_all_partitions P) <->
             get_partition P (Some (model e)) = Some e).
Proof.
  destruct (Partitions_new_inv R P Hnew)
    as (sp & fsys & vp & fven & log & Hs & Hv & ->).
  unfold get_all_partitions. cbn [partitions].
  pose proof (constructed_keys_NoDup R sp vp) as Hnd.
  pose proof (constructed_well_keyed R sp vp) as Hwk.
  set (t := fold_left (step R sp vp) optional_models (two sp vp)) in *.
  split; [now rewrite well_keyed_values|]. split.
  - intros m e H. rewrite get_partition_eq in H. cbn [partitions] in H.
    apply dict_get_In_pair in H. unfold well_keyed in Hwk.
    rewrite Forall_forall in Hwk. exact (Hwk _ H).
  - intros e. rewrite get_partition_eq. cbn [partitions]. split.
    + intros Hin. apply in_map_iff in Hin. destruct Hin as ([k v] & <- & Hin).
      unfold well_keyed in Hwk. rewrite Forall_forall in Hwk.
      pose proof (Hwk _ Hin) as Hk. cbn [fst snd] in *. subst k.
      now apply In_pair_dict_get.
    + intros H. exact (dict_get_In _ _ _ _ H).
Qed.

(** X15: the attributes of a constructed object agree with its table:
    [dump_path] is the root given, [system] and [vendor] are the entries
    [get_partition] returns for System and Vendor, and both are set. *)
Theorem attributes_agree_with_table (R : Path) (P : Partitions)
    (Hnew : Partitions_new is_file R = inr P) :
  dump_path P = R /\
  system P = get_partition P (Some SYSTEM) /\
  vendor P = get_partition P (Some VENDOR) /\
  system P <> None /\ vendor P <> None.
Proof.
  destruct (Partitions_new_inv R P Hnew)
    as (sp & fsys & vp & fven & log & Hs & Hv & ->).
  rewrite !get_partition_eq. cbn [dump_path partitions system vendor].
  rewrite (fold_optional_step_get is_file _ _ _ _ _ SYSTEM _
             (get_SYSTEM_initial _ _)).
  rewrite (fold_optional_step_get is_file _ _ _ _ _ VENDOR _
             (get_VENDOR_initial _ _)).
  repeat split; discriminate.
Qed.

(** X16: System is the first of its candidates that holds a property file of
    the combined list, and Vendor the first of its candidates that does, the
    candidates of Vendor being [<System directory>/vendor] followed by those
    of the generator. *)
Theorem mandatory_partitions_are_first_holding_candidates (R : Path)
    (P : Partitions)
    (Hnew : Partitions_new is_file R = inr P) :
  exists sp vp,
    find holds (system_search_locations R) = Some sp /\
    find holds (vendor_search_locations R sp) = Some vp /\
    system P = Some (AP SYSTEM sp) /\
    vendor P = Some (AP VENDOR vp).
Proof.
  destruct (Partitions_new_inv R P Hnew)
    as (sp & fsys & vp & fven & log & Hs & Hv & ->).
  exists sp, vp. rewrite <- !find_hit_directory, Hs, Hv. repeat split.
Qed.

(** X17: construction succeeds exactly when some System candidate holds a
    property file and, for the first such, some Vendor candidate does. *)
Theorem construction_succeeds_iff_both_found (R : Path) :
  (exists P, Partitions_new is_file R = inr P) <->
  (exists sp vp,
     find holds (system_search_locations R) = Some sp /\
     find holds (vendor_search_locations R sp) = Some vp).
Proof.
  split.
  - intros [P Hnew].
    destruct (Partitions_new_inv R P Hnew)
      as (sp & fsys & vp & fven & log & Hs & Hv & _).
    exists sp, vp. now rewrite <- !find_hit_directory, Hs, Hv.
  - intros (sp & vp & Hs & Hv). rewrite <- find_hit_directory in Hs, Hv.
    pose proof (Partitions_new_run is_file R) as Hrun.
    destruct (find hits (all_pairs (system_search_locations R) files))
      as [[sp' fsys]|]; [|discriminate].
    cbn in Hs. injection Hs as ->.
    destruct (find hits (all_pairs (vendor_search_locations R sp) files))
      as [[vp' fven]|]; [|discriminate].
    destruct Hrun as [log Hrun]. eauto.
Qed.

(** X18: a vendor directory nested under the System directory is preferred
    to every other Vendor candidate: when it holds a property file, Vendor is
    resolved to it. *)
Theorem nested_vendor_is_preferred (R : Path) (P : Partitions)
    (sys : AndroidPartition) (f : Path)
    (Hnew : Partitions_new is_file R = inr P)
    (Hsys : system P = Some sys)
    (Hf : In f files)
    (Hnested : is_file (path sys / "vendor" / f) = true) :
  vendor P = Some (AP VENDOR (path sys / "vendor")).
Proof.
  destruct (Partitions_new_inv R P Hnew)
    as (sp & fsys & vp & fven & log & Hs & Hv & ->).
  cbn [system vendor] in *. injection Hsys as <-. cbn [path] in Hnested.
  unfold vendor_search_locations in Hv.
  destruct (find_at_head is_file (sp / "vendor") f
              (get_extended_search_locations R "vendor") Hf Hnested) as [f' H'].
  rewrite H' in Hv. now injection Hv as <- _.
Qed.

(** X19: the table of a constructed object holds no identity besides System,
    Vendor and the members of the two groups. *)
Theorem table_identities_come_from_the_groups (R : Path) (P : Partitions)
    (e : AndroidPartition)
    (Hnew : Partitions_new is_file R = inr P)
    (He : In e (get_all_partitions P)) :
  model e = SYSTEM \/ model e = VENDOR \/
  In (model e) (from_group SSI) \/ In (model e) (from_group TREBLE).
Proof.
  destruct (Partitions_new_inv R P Hnew)
    as (sp & fsys & vp & fven & log & Hs & Hv & ->).
  apply (in_map model) in He. unfold get_all_partitions in He.
  cbn [partitions] in He.
  rewrite well_keyed_values in He by apply constructed_well_keyed.
  rewrite fold_step_keys in He. cbn [dict_keys map fst app In] in He.
  destruct He as [<-|[<-|He]]; [now left | right; now left | right; right].
  apply first_occurrences_In in He. destruct He as [He _].
  apply filter_In in He. destruct He as [He _]. unfold optional_models in He.
  apply in_app_or in He. destruct He as [He|He]; apply filter_In in He; tauto.
Qed.

Lemma fold_step_get_searched (R sp vp : Path) (m : PartitionModel)
    (ms : list PartitionModel) (t : table) :
  In m ms -> dict_get model_eq_dec m t = None ->
  dict_get model_eq_dec m (fold_left (step R sp vp) ms t) =
  match find hits (all_pairs (possible_locations R sp vp m) files) with
  | Some (d, _) => Some (AP m d)
  | None => None
  end.
Proof.
  revert t. induction ms as [|a ms IH]; intros t Hin Ht; [contradiction|].
  cbn [fold_left]. destruct (model_eq_dec a m) as [->|N].
  - clear IH Hin.
    assert (Hstep : step R sp vp t m =
              match find hits (all_pairs (possible_locations R sp vp m) files) with
              | Some (d, _) => dict_set model_eq_dec m (AP m d) t
              | None => t
              end).
    { unfold optional_step, dict_contains. now rewrite Ht. }
    rewrite Hstep.
    destruct (find hits (all_pairs (possible_locations R sp vp m) files))
      as [[d f]|] eqn:E.
    + apply fold_optional_step_get. apply dict_get_set_same.
    + now apply fold_optional_step_absent.
  - destruct Hin as [Hin|Hin]; [contradiction|]. apply IH; [exact Hin|].
    unfold optional_step. destruct (dict_contains model_eq_dec a t); [exact Ht|].
    destruct (find hits (all_pairs (possible_locations R sp vp a) files))
      as [[d f]|]; [|exact Ht].
    rewrite dict_get_set_other; [exact Ht | congruence].
Qed.

(** X20: an identity of either group other than System and Vendor is resolved
    to the first of its candidates, in the order of the generic extended
    search, that holds a property file, and is absent when none does. *)
Theorem optional_partition_is_first_holding_candidate (R : Path)
    (P : Partitions) (sys ven : AndroidPartition) (m : PartitionModel)
    (Hnew : Partitions_new is_file R = inr P)
    (Hsys : system P = Some sys)
    (Hven : vendor P = Some ven)
    (Hnot_system : m <> SYSTEM)
    (Hnot_vendor : m <> VENDOR)
    (Hgroup : In m (from_group SSI) \/ In m (from_group TREBLE)) :
  get_partition P (Some m) =
  option_map (AP m)
    (find holds (possible_locations R (path sys) (path ven) m)).
Proof.
  destruct (Partitions_new_inv R P Hnew)
    as (sp & fsys & vp & fven & log & Hs & Hv & ->).
  cbn [system vendor] in *. injection Hsys as <-. injection Hven as <-.
  cbn [path]. rewrite get_partition_eq. cbn [partitions].
  rewrite (fold_step_get_searched R sp vp m).
  - rewrite <- find_hit_directory.
    now destruct (find hits (all_pairs (possible_locations R sp vp m) files))
      as [[d f]|].
  - unfold optional_models. apply in_or_app.
    destruct Hgroup as [H|H]; [left | right]; apply filter_In; split; try exact H;
      unfold is_not; now destruct (model_eq_dec m _).
  - simpl. destruct (model_eq_dec m SYSTEM); [contradiction|].
    now destruct (model_eq_dec m VENDOR).
Qed.
End ConstructionFacts.

(** ** Further runs on the sample dump *)

Lemma searches_raise_without_system_witness :
  _search_for_partition_extended plain_fs Product (fresh dump) =
    (Raise (KeyError SYSTEM), fresh dump) /\
  _search_for_partition plain_fs Product (fresh dump) =
    (Raise (KeyError SYSTEM), fresh dump).
Proof.
  apply (@searches_raise_without_system catalog plain_fs Product (fresh dump)).
  reflexivity.
Defined.

Lemma searches_raise_without_vendor_witness :
  _search_for_partition_extended plain_fs Product only_system =
    (Raise (KeyError VENDOR), only_system) /\
  _search_for_partition plain_fs Product only_system =
    (Raise (KeyError VENDOR), only_system).
Proof.
  apply (@searches_raise_without_vendor catalog plain_fs Product only_system
           system_partition); reflexivity.
Defined.

Lemma extended_search_probe_bound_witness :
  exists log,
    probed (snd (_search_for_partition_extended plain_fs Product ready)) =
      probed ready ++ log /\
    List.length log <= 12 * List.length all_prop_locations /\
    forall d f, In (d, f) log ->
      In d (possible_locations (Cat := catalog) (dump_path ready)
              (path system_partition) (path vendor_partition) Product) /\
      In f all_prop_locations.
Proof.
  apply (@extended_search_probe_bound catalog plain_fs Product ready
           system_partition vendor_partition); reflexivity.
Defined.

Lemma legacy_search_last_match_wins_witness :
  let locs :=
    legacy_locations (Cat := catalog) (dump_path ready)
      (path system_partition) (path vendor_partition) Product in
  _search_for_partition two_products_fs Product ready =
  (Ok tt,
   mkPartitions (dump_path ready)
     (match find (holds_one_of two_products_fs BUILD_PROP_LOCATION) (rev locs) with
      | Some d => dict_set model_eq_dec Product (mkAndroidPartition Product d)
                    (partitions ready)
      | None => partitions ready
      end)
     (system ready) (vendor ready)
     (probed ready ++ probes_per_directory two_products_fs BUILD_PROP_LOCATION locs)).
Proof.
  apply (@legacy_search_last_match_wins catalog two_products_fs Product ready
           system_partition vendor_partition); reflexivity.
Defined.

Lemma legacy_search_overwrites_present_entry_witness :
  let after :=
    snd (_search_for_partition two_products_fs Product with_product_elsewhere) in
  get_partition after (Some Product) = Some product_partition /\
  dict_keys (partitions after) = dict_keys (partitions with_product_elsewhere).
Proof.
  apply (@legacy_search_overwrites_present_entry catalog two_products_fs Product
           with_product_elsewhere system_partition vendor_partition
           (of_string "/dump/product")).
  - reflexivity.
  - reflexivity.
  - reflexivity.
  - vm_compute. reflexivity.
Defined.

Lemma legacy_search_probe_bound_witness :
  exists log,
    probed (snd (_search_for_partition two_products_fs Product ready)) =
      probed ready ++ log /\
    List.length log <= 3 * List.length BUILD_PROP_LOCATION /\
    forall d f, In (d, f) log ->
      In d (legacy_locations (Cat := catalog) (dump_path ready)
              (path system_partition) (path vendor_partition) Product) /\
      In f BUILD_PROP_LOCATION.
Proof.
  apply (@legacy_search_probe_bound catalog two_products_fs Product ready
           system_partition vendor_partition); reflexivity.
Defined.

Lemma constructed_product_dump :
  Partitions_new product_fs dump = inr (constructed product_fs dump).
Proof. vm_compute. reflexivity. Defined.

Lemma resolved_directories_hold_a_property_file_witness :
  exists f, In f all_prop_locations /\ product_fs (path product_partition / f) = true.
Proof.
  apply (@resolved_directories_hold_a_property_file catalog product_fs dump
           (constructed product_fs dump) product_partition).
  - exact constructed_product_dump.
  - vm_compute. tauto.
Defined.

Lemma accessors_agree_on_constructed_object_witness :
  NoDup (map model (get_all_partitions (constructed product_fs dump))) /\
  (forall m e, get_partition (constructed product_fs dump) (Some m) = Some e ->
               model e = m) /\
  (forall e, In e (get_all_partitions (constructed product_fs dump)) <->
             get_partition (constructed product_fs dump) (Some (model e)) = Some e).
Proof.
  apply (@accessors_agree_on_constructed_object catalog product_fs dump
           (constructed product_fs dump)).
  exact constructed_product_dump.
Defined.

Lemma attributes_agree_with_table_witness :
  dump_path (constructed product_fs dump) = dump /\
  system (constructed product_fs dump) =
    get_partition (constructed product_fs dump) (Some SYSTEM) /\
  vendor (constructed product_fs dump) =
    get_partition (constructed product_fs dump) (Some VENDOR) /\
  system (constructed product_fs dump) <> None /\
  vendor (constructed product_fs dump) <> None.
Proof.
  apply (@attributes_agree_with_table catalog product_fs dump
           (constructed product_fs dump)).
  exact constructed_product_dump.
Defined.

Lemma mandatory_partitions_are_first_holding_candidates_witness :
  exists sp vp,
    find (holds_one_of product_fs all_prop_locations)
      (system_search_locations dump) = Some sp /\
    find (holds_one_of product_fs all_prop_locations)
      (vendor_search_locations dump sp) = Some vp /\
    system (constructed product_fs dump) = Some (mkAndroidPartition SYSTEM sp) /\
    vendor (constructed product_fs dump) = Some (mkAndroidPartition VENDOR vp).
Proof.
  apply (@mandatory_partitions_are_first_holding_candidates catalog product_fs dump
           (constructed product_fs dump)).
  exact constructed_product_dump.
Defined.

Lemma nested_vendor_is_preferred_witness :
  vendor (constructed nested_fs dump) =
  Some (mkAndroidPartition VENDOR (path system_partition / "vendor")).
Proof.
  apply (@nested_vendor_is_preferred catalog nested_fs dump
           (constructed nested_fs dump) system_partition (of_string "build.prop")).
  - vm_compute. reflexivity.
  - vm_compute. reflexivity.
  - vm_compute. tauto.
  - vm_compute. reflexivity.
Defined.

Lemma table_identities_come_from_the_groups_witness :
  model product_partition = SYSTEM \/ model product_partition = VENDOR \/
  In (model product_partition) (from_group SSI) \/
  In (model product_partition) (from_group TREBLE).
Proof.
  apply (@table_identities_come_from_the_groups catalog product_fs dump
           (constructed product_fs dump) product_partition).
  - exact constructed_product_dump.
  - vm_compute. tauto.
Defined.

Lemma optional_partition_is_first_holding_candidate_witness :
  get_partition (constructed product_fs dump) (Some Product) =
  option_map (mkAndroidPartition Product)
    (find (holds_one_of product_fs all_prop_locations)
       (possible_locations (Cat := catalog) dump (path system_partition)
          (path vendor_partition) Product)).
Proof.
  apply (@optional_partition_is_first_holding_candidate catalog product_fs dump
           (constructed product_fs dump) system_partition vendor_partition Product).
  - exact constructed_product_dump.
  - vm_compute. reflexivity.
  - vm_compute. reflexivity.
  - discriminate.
  - discriminate.
  - left. simpl. tauto.
Defined.
